(** * APK Permission Inspector: a shallow embedding of [permission.py]

    The development follows the layout of the Python module:
    - [PyStr]: Python [str] values (sequences of code points), their
      equality, ordering, [strip], and the builtins [set] and [sorted];
    - [PyDict]: insertion-ordered dictionaries keyed by [str];
    - [Xml]: the part of an lxml element that the program reads;
    - [Permission]: the catalog, [extract_permissions],
      [classify_permission], [diff_permissions];
    - [Cli]: the effectful part ([load_manifest_from_apk],
      [parse_manifest], [export_json], [analyze]) over an explicit
      environment and an output trace;
    - [SpecWords], [Demo], [Notions]: the wording of the specification
      where it is compared with the code, concrete manifests and
      environments, and the vocabulary of the statements;
    - the properties, one module per component. *)

From Stdlib Require Import List NArith Bool Ascii String Lia.
From Stdlib Require Import Sorting.Sorted Sorting.Permutation.
Import ListNotations.

Set Implicit Arguments.

(* ------------------------------------------------------------------ *)
(** ** Python strings *)

Module PyStr.

(** A Python [str] is a sequence of Unicode code points. *)
Definition char := N.
Definition str := list char.

(** ASCII literals of the source, as code points. *)
Definition lit (s : string) : str :=
  List.map N_of_ascii (list_ascii_of_string s).

Definition eqb (a b : str) : bool :=
  if list_eq_dec N.eq_dec a b then true else false.

(** [x in xs] for a list or tuple of strings. *)
Definition mem (x : str) (xs : list str) : bool := existsb (eqb x) xs.

(** Truthiness of a string: the empty string is falsy. *)
Definition truthy (s : str) : bool :=
  match s with [] => false | _ :: _ => true end.

(** *** Ordering: [str.__lt__] compares code point by code point. *)

Definition compare (a b : str) : comparison := list_compare N.compare a b.

Definition lt (a b : str) : Prop := compare a b = Lt.
Definition ltb (a b : str) : bool :=
  match compare a b with Lt => true | _ => false end.

(** *** [str.strip()] *)

(** The code points Python treats as whitespace ([str.isspace]): the ASCII
    controls 9-13 and 28-31, the space, and the Unicode separators. *)
Definition isspace (c : char) : bool :=
  (((9 <=? c) && (c <=? 13)) || ((28 <=? c) && (c <=? 32))
   || (c =? 133) || (c =? 160) || (c =? 5760)
   || ((8192 <=? c) && (c <=? 8202))
   || (c =? 8232) || (c =? 8233) || (c =? 8239) || (c =? 8287)
   || (c =? 12288))%N.

Fixpoint lstrip (s : str) : str :=
  match s with
  | [] => []
  | c :: s' => if isspace c then lstrip s' else s
  end.

Definition rstrip (s : str) : str := rev (lstrip (rev s)).

Definition strip (s : str) : str := rstrip (lstrip s).

(** *** The builtins [set] and [sorted] on strings *)

(** [set(xs)] followed by iteration: each distinct element once.  The
    iteration order of a Python set is unspecified; the model keeps the
    first occurrences.  [PyStrFacts.sorted_set_any_order] below shows that the only
    use made of it, [sorted(set(xs))], does not depend on that order. *)
Fixpoint pyset (xs : list str) : list str :=
  match xs with
  | [] => []
  | x :: xs' => x :: List.filter (fun y => negb (eqb x y)) (pyset xs')
  end.

Fixpoint insert (x : str) (xs : list str) : list str :=
  match xs with
  | [] => [x]
  | y :: ys => if ltb y x then y :: insert x ys else x :: xs
  end.

(** [sorted(xs)]: ascending order under [<]. *)
Fixpoint sorted (xs : list str) : list str :=
  match xs with
  | [] => []
  | x :: xs' => insert x (sorted xs')
  end.

End PyStr.


(* ------------------------------------------------------------------ *)
(** ** Insertion-ordered dictionaries keyed by [str] *)

Module PyDict.
Import PyStr.

Section Dict.
Variable V : Type.

(** A Python [dict]: the keys in insertion order, each bound once. *)
Definition dict := list (str * V).

Definition keys (d : dict) : list str := List.map fst d.

(** [d[k]]; [None] stands for [KeyError]. *)
Fixpoint get (d : dict) (k : str) : option V :=
  match d with
  | [] => None
  | (k', v) :: d' => if eqb k' k then Some v else get d' k
  end.

(** [k in d] *)
Definition contains (d : dict) (k : str) : bool := mem k (keys d).

(** [d[k] = v]: a bound key keeps its position and takes the new value,
    a fresh key goes last. *)
Fixpoint set (d : dict) (k : str) (v : V) : dict :=
  match d with
  | [] => [(k, v)]
  | (k', v') :: d' =>
      if eqb k' k then (k', v) :: d' else (k', v') :: set d' k v
  end.

End Dict.

(** [{key(p): p for p in ps}] *)
Definition comprehension {A : Type} (key : A -> str) (ps : list A) : dict A :=
  fold_left (fun d p => set d (key p) p) ps [].

End PyDict.

(* ------------------------------------------------------------------ *)
(** ** The element tree read by the extractor *)

Module Xml.
Import PyStr.

(** An lxml element: its tag, its attributes (qualified names in
    [{uri}local] form) and its child elements in document order. *)
#[warnings="-register-all"]
Inductive element : Type :=
| Element (tag : str) (attrib : PyDict.dict str) (children : list element).

Definition tag (e : element) : str := let 'Element t _ _ := e in t.
Definition attrib (e : element) : PyDict.dict str := let 'Element _ a _ := e in a.
Definition children (e : element) : list element := let 'Element _ _ c := e in c.

(** [root.findall(t)] with a plain tag name: the children of [root] that
    carry this tag, in document order. *)
Definition findall (root : element) (t : str) : list element :=
  List.filter (fun el => eqb (tag el) t) (children root).

(** [el.get(key)]: the attribute value, or [None]. *)
Definition get (el : element) (key : str) : option str :=
  PyDict.get (attrib el) key.

End Xml.

(* ------------------------------------------------------------------ *)
(** ** Catalog, extractor, classifier, differ *)

Module Permission.
Import PyStr.

(** [PERMISSION_CATEGORIES]: name -> (category, group). *)
Definition PERMISSION_CATEGORIES : PyDict.dict (str * str) :=
  [ (lit "android.permission.INTERNET", (lit "normal", lit "NETWORK"));
    (lit "android.permission.ACCESS_NETWORK_STATE", (lit "normal", lit "NETWORK"));
    (lit "android.permission.ACCESS_FINE_LOCATION", (lit "dangerous", lit "LOCATION"));
    (lit "android.permission.ACCESS_COARSE_LOCATION", (lit "dangerous", lit "LOCATION"));
    (lit "android.permission.READ_CONTACTS", (lit "dangerous", lit "CONTACTS"));
    (lit "android.permission.WRITE_CONTACTS", (lit "dangerous", lit "CONTACTS"));
    (lit "android.permission.RECORD_AUDIO", (lit "dangerous", lit "MICROPHONE"));
    (lit "android.permission.CAMERA", (lit "dangerous", lit "CAMERA"));
    (lit "android.permission.READ_SMS", (lit "dangerous", lit "SMS"));
    (lit "android.permission.SEND_SMS", (lit "dangerous", lit "SMS"));
    (lit "android.permission.RECEIVE_SMS", (lit "dangerous", lit "SMS"));
    (lit "android.permission.READ_EXTERNAL_STORAGE", (lit "dangerous", lit "STORAGE"));
    (lit "android.permission.WRITE_EXTERNAL_STORAGE", (lit "dangerous", lit "STORAGE"));
    (lit "android.permission.POST_NOTIFICATIONS", (lit "dangerous", lit "NOTIFICATIONS"));
    (lit "android.permission.INSTALL_PACKAGES", (lit "signature", lit "SYSTEM"));
    (lit "android.permission.READ_LOGS", (lit "signature", lit "SYSTEM")) ].

(** The qualified attribute name read by the extractor. *)
Definition ANDROID_NAME : str :=
  lit "{http://schemas.android.com/apk/res/android}name".

Definition PERMISSION_TAGS : list str :=
  [lit "uses-permission"; lit "uses-permission-sdk-23"].

(** The body of the inner loop: [name = el.get(...)], then
    [if name: perms.append(name.strip())]. *)
Definition collect (el : Xml.element) : list str :=
  match Xml.get el ANDROID_NAME with
  | Some name => if truthy name then [strip name] else []
  | None => []
  end.

(** The list [perms] when both loops are done. *)
Definition collected (root : Xml.element) : list str :=
  flat_map (fun tag => flat_map collect (Xml.findall root tag)) PERMISSION_TAGS.

(** [extract_permissions(manifest_root)]; [None] is Python's [None]. *)
Definition extract_permissions (manifest_root : option Xml.element) : list str :=
  match manifest_root with
  | None => []
  | Some root => sorted (pyset (collected root))
  end.

(** The dictionary built by [classify_permission]. *)
Record PermissionRecord : Type := mkRecord {
  name : str;
  category : str;
  group : option str;
  sensitive : bool
}.

Definition classify_permission (n : str) : PermissionRecord :=
  let '(cat, grp) :=
    match PyDict.get PERMISSION_CATEGORIES n with
    | Some (c, g) => (c, Some g)
    | None => (lit "unknown", None)
    end in
  let sens := mem cat [lit "dangerous"; lit "signature"] in
  {| name := n; category := cat; group := grp; sensitive := sens |}.

(** The dictionary returned by [diff_permissions]. *)
Record DiffResult : Type := mkDiff {
  added : list str;
  removed : list str;
  newDangerous : list str
}.

(** [[n for n in ns if d[n]["category"] == "dangerous"]]; the lookup
    [d[n]] raises [KeyError] ([None]) on a key that is not bound. *)
Fixpoint dangerous_of (d : PyDict.dict PermissionRecord) (ns : list str)
  : option (list str) :=
  match ns with
  | [] => Some []
  | n :: ns' =>
      match PyDict.get d n with
      | None => None
      | Some p =>
          match dangerous_of d ns' with
          | None => None
          | Some rest =>
              Some (if eqb (category p) (lit "dangerous") then n :: rest else rest)
          end
      end
  end.

(** [diff_permissions(old, new)]; [None] stands for a raised [KeyError]. *)
Definition diff_permissions (old new : list PermissionRecord)
  : option DiffResult :=
  let old_names := PyDict.comprehension name old in
  let new_names := PyDict.comprehension name new in
  let added :=
    List.filter (fun n => negb (PyDict.contains old_names n)) (PyDict.keys new_names) in
  let removed :=
    List.filter (fun n => negb (PyDict.contains new_names n)) (PyDict.keys old_names) in
  match dangerous_of new_names added with
  | None => None
  | Some new_dangerous =>
      Some {| added := added; removed := removed; newDangerous := new_dangerous |}
  end.

(** The dictionary [report] of [analyze]. *)
Record Report : Type := mkReport {
  permissions : list PermissionRecord;
  diff : option DiffResult
}.

End Permission.

(* ------------------------------------------------------------------ *)
(** ** The command-line program *)

Module Cli.
Import PyStr Permission.

Definition bytes := list Byte.byte.
Definition path := str.

(** *** What the program does to the outside: console lines and files *)

(** Where the exception shown by the error line of [export_json] came
    from: the write itself, or the line that reports the saved file
    (which stands inside the same [try]). *)
Inductive json_failure : Type :=
| WriteFailed
| SavedLineFailed.

(** The lines handed to [console.print], by their template and the
    values their text is made from.  The three error lines interpolate
    the text of the caught exception, which is decided by what failed:
    the archive, the data, the output path. *)
Inductive message : Type :=
| MsgApkNotFound (p : path)        (* load_manifest_from_apk, missing file *)
| MsgExtractError (p : path)       (* load_manifest_from_apk, except branch *)
| MsgParseError (data : option bytes)  (* parse_manifest, except branch *)
| MsgInputMissing                  (* analyze, neither --apk nor --manifest *)
| MsgCompareHeader
| MsgAdded (ns : list str)
| MsgRemoved (ns : list str)
| MsgNewDangerous (ns : list str)
| MsgPolicyFail                    (* analyze, before exit code 3 *)
| MsgJsonSaved (p : path)          (* export_json, success *)
| MsgJsonWriteError (p : path) (why : json_failure). (* export_json, except branch *)

Inductive event : Type :=
| SetNoColor
| Print (m : message)
| Table (title : str) (rows : list PermissionRecord)
| JsonFile (p : path) (r : Report).

(** The exceptions of a run.  [OSError] stands for the class with its
    subclasses other than [FileNotFoundError]; [MarkupError] is what the
    console raises on a line whose text holds an unmatched closing tag;
    [OtherError] stands for any further exception, by its name. *)
Inductive exn : Type :=
| FileNotFoundError
| OSError
| KeyError
| MarkupError
| OtherError (name : str).

(** What leaves a function other than by [return]. *)
Inductive raised : Type :=
| Exit (code : N)                  (* typer.Exit(code=...) *)
| Error (e : exn).                 (* an exception nothing catches *)

Inductive result (A : Type) : Type :=
| Ok (a : A)
| Raise (e : raised).
Arguments Ok {A} a.
Arguments Raise {A} e.

(** A computation: the events it produced, in order, and how it ended. *)
Definition M (A : Type) : Type := (list event * result A)%type.

Definition ret {A} (a : A) : M A := ([], Ok a).
Definition raise {A} (e : raised) : M A := ([], Raise e).
Definition emit (e : event) : M unit := ([e], Ok tt).

Definition bind {A B} (m : M A) (f : A -> M B) : M B :=
  match m with
  | (ev, Ok a) => let '(ev', r) := f a in (ev ++ ev', r)
  | (ev, Raise e) => (ev, Raise e)
  end.

Notation "x <- m ;; k" := (bind m (fun x => k))
  (at level 61, m at next level, right associativity).
Notation "m ;; k" := (bind m (fun _ => k))
  (at level 61, right associativity).

Definition when (b : bool) (m : M unit) : M unit := if b then m else ret tt.

Definition trace {A} (m : M A) : list event := fst m.
Definition status {A} (m : M A) : result A := snd m.

(** *** The environment of one run *)

(** What a path leads to.  [exists()] takes a failure of [stat] for
    absence when the error is one of ENOENT, ENOTDIR, EBADF, ELOOP, and
    passes any other on. *)
Inductive node : Type :=
| Missing                          (* no such path (ENOENT) *)
| Unreachable (e : exn)            (* taken for absent by [exists()] otherwise:
                                      below a regular file, a link loop;
                                      [open] raises [e] *)
| BadPath (e : exn)                (* [stat] and [open] raise [e], as on a
                                      name that is too long *)
| Unreadable                       (* exists, but reading it raises: a
                                      directory, a file without permission *)
| File (content : bytes).

Record Env : Type := mkEnv {
  (** the file system *)
  fs : path -> node;
  (** [ZipFile(...).read("AndroidManifest.xml")] on the bytes of an
      archive; [None] when it raises *)
  unzip_manifest : bytes -> option bytes;
  (** the module [apkutils2] when it could be imported, as its function
      [APK.load_manifest_xml]; [None] inside when that raises *)
  apkutils2 : option (option bytes -> option bytes);
  (** [etree.fromstring]; [None] when it raises *)
  fromstring : bytes -> option Xml.element;
  (** whether [open(path, "w")] and [json.dump] go through *)
  can_write : path -> bool;
  (** [console.print] on a line or a table: the exception it raises, or
      [None] when the line or table is rendered; the text to print
      decides, by its markup and by the encoding of the terminal *)
  console : event -> option exn
}.

(** [console.print(...)] of a line. *)
Definition print (w : Env) (m : message) : M unit :=
  match console w (Print m) with
  | None => emit (Print m)
  | Some e => raise (Error e)
  end.

(** [apk_path.exists()]: false for a path that is not there; any other
    failure of [stat] is passed on. *)
Definition exists_ (w : Env) (p : path) : M bool :=
  match fs w p with
  | Missing | Unreachable _ => ret false
  | BadPath e => raise (Error e)
  | Unreadable | File _ => ret true
  end.

(** [Path(p).read_bytes()] *)
Definition read_bytes (w : Env) (p : path) : M bytes :=
  match fs w p with
  | File b => ret b
  | Missing => raise (Error FileNotFoundError)
  | Unreachable e | BadPath e => raise (Error e)
  | Unreadable => raise (Error OSError)
  end.

(** [zipfile.ZipFile(p, "r").read("AndroidManifest.xml")]; [None] when
    either step raises. *)
Definition zip_read (w : Env) (p : path) : option bytes :=
  match fs w p with
  | File b => unzip_manifest w b
  | _ => None
  end.

Definition load_manifest_from_apk (w : Env) (apk_path : path) : M (option bytes) :=
  there <- exists_ w apk_path ;;
  if negb there then
    print w (MsgApkNotFound apk_path) ;;
    ret None
  else
    match zip_read w apk_path with
    | Some data => ret (Some data)
    | None =>
        print w (MsgExtractError apk_path) ;;
        ret None
    end.

(** The [try] body of [parse_manifest]; [None] when it raises.
    [etree.fromstring(None)] raises. *)
Definition parse_attempt (w : Env) (data : option bytes) : option Xml.element :=
  match apkutils2 w with
  | Some load_manifest_xml =>
      match load_manifest_xml data with
      | Some xml => fromstring w xml
      | None => None
      end
  | None =>
      match data with
      | Some b => fromstring w b
      | None => None
      end
  end.

Definition parse_manifest (w : Env) (data : option bytes) : M (option Xml.element) :=
  match parse_attempt w data with
  | Some root => ret (Some root)
  | None =>
      print w (MsgParseError data) ;;
      ret None
  end.

(** [console.print(table)] after the rows are added. *)
Definition print_table (w : Env) (permissions : list PermissionRecord) (title : str)
  : M unit :=
  match console w (Table title permissions) with
  | None => emit (Table title permissions)
  | Some e => raise (Error e)
  end.

(** The line that reports the saved file stands inside the [try]: what
    it raises is caught like a failure of the write, and the error line
    is printed from the handler, where nothing catches. *)
Definition export_json (w : Env) (data : Report) (p : path) : M unit :=
  if can_write w p then
    emit (JsonFile p data) ;;
    match console w (Print (MsgJsonSaved p)) with
    | None => emit (Print (MsgJsonSaved p))
    | Some _ => print w (MsgJsonWriteError p SavedLineFailed)
    end
  else
    print w (MsgJsonWriteError p WriteFailed).

(** *** [analyze] *)

Record Args : Type := mkArgs {
  apk : option path;
  manifest : option path;
  compare_apk : option path;
  compare_manifest : option path;
  output : option path;
  only : option (list str);
  fail_on_new_dangerous : bool;
  no_color : bool
}.

Definition is_some {A} (o : option A) : bool :=
  match o with Some _ => true | None => false end.

Definition nonempty {A} (l : list A) : bool :=
  match l with [] => false | _ :: _ => true end.

(** [data1], lines 174-181. *)
Definition load_base (w : Env) (a : Args) : M (option bytes) :=
  match apk a, manifest a with
  | Some p, _ => load_manifest_from_apk w p
  | None, Some p => data <- read_bytes w p ;; ret (Some data)
  | None, None =>
      print w MsgInputMissing ;;
      raise (Exit 1)
  end.

(** [perms1] after [if only:], line 188-189: an absent or empty list
    filters nothing. *)
Definition apply_only (o : option (list str)) (perms : list PermissionRecord)
  : list PermissionRecord :=
  match o with
  | Some cats =>
      if nonempty cats then List.filter (fun p => mem (category p) cats) perms
      else perms
  | None => perms
  end.

(** Lines 170-191: up to the table of the base permissions; the value is
    [perms1]. *)
Definition base_stage (w : Env) (a : Args) : M (list PermissionRecord) :=
  when (no_color a) (emit SetNoColor) ;;
  data1 <- load_base w a ;;
  manifest1 <- parse_manifest w data1 ;;
  match manifest1 with
  | None => raise (Exit 1)
  | Some _ =>
      let perms1 := List.map classify_permission (extract_permissions manifest1) in
      let perms1 := apply_only (only a) perms1 in
      print_table w perms1 (lit "Permissions (Base)") ;;
      ret perms1
  end.

(** [data2], lines 200-204 (under [if compare_apk or compare_manifest]). *)
Definition load_compare (w : Env) (a : Args) : M (option bytes) :=
  match compare_apk a, compare_manifest a with
  | Some p, _ => load_manifest_from_apk w p
  | None, Some p => data <- read_bytes w p ;; ret (Some data)
  | None, None => ret None
  end.

(** Lines 200-207: the value is [d]. *)
Definition compare_stage (w : Env) (a : Args) (perms1 : list PermissionRecord)
  : M DiffResult :=
  data2 <- load_compare w a ;;
  manifest2 <- parse_manifest w data2 ;;
  let perms2 := List.map classify_permission (extract_permissions manifest2) in
  match diff_permissions perms1 perms2 with
  | Some d => ret d
  | None => raise (Error KeyError)
  end.

(** Lines 211-218. *)
Definition print_diff (w : Env) (d : DiffResult) : M unit :=
  when (nonempty (added d) || nonempty (removed d))
    (print w MsgCompareHeader ;;
     when (nonempty (added d)) (print w (MsgAdded (added d))) ;;
     when (nonempty (removed d)) (print w (MsgRemoved (removed d))) ;;
     when (nonempty (newDangerous d)) (print w (MsgNewDangerous (newDangerous d)))).

(** [if output: export_json(report, output)] *)
Definition export_if_requested (w : Env) (a : Args) (report : Report) : M unit :=
  match output a with
  | Some p => export_json w report p
  | None => ret tt
  end.

Definition analyze (w : Env) (a : Args) : M unit :=
  perms1 <- base_stage w a ;;
  let report := {| permissions := perms1; diff := None |} in
  report <-
    (if is_some (compare_apk a) || is_some (compare_manifest a) then
       d <- compare_stage w a perms1 ;;
       let report := {| permissions := perms1; diff := Some d |} in
       print_diff w d ;;
       (if fail_on_new_dangerous a && nonempty (newDangerous d) then
          print w MsgPolicyFail ;;
          export_if_requested w a report ;;
          raise (Exit 3)
        else ret tt) ;;
       ret report
     else ret report) ;;
  export_if_requested w a report ;;
  raise (Exit 0).

End Cli.

(* ------------------------------------------------------------------ *)
(** ** The specification's wording, for comparison with the code *)

Module SpecWords.
Import PyStr Permission Cli.

(** The extractor as the specification words it: every matching element
    that has the name attribute contributes its trimmed value; only
    elements without the attribute are skipped. *)
Definition spec_collect (el : Xml.element) : list str :=
  match Xml.get el ANDROID_NAME with
  | Some v => [strip v]
  | None => []
  end.

Definition spec_extract (manifest_root : option Xml.element) : list str :=
  match manifest_root with
  | None => []
  | Some root =>
      sorted (pyset (flat_map (fun tag => flat_map spec_collect (Xml.findall root tag))
                              PERMISSION_TAGS))
  end.

(** Plain XML parsing of the input bytes. *)
Definition plain_attempt (w : Env) (data : option bytes) : option Xml.element :=
  match data with
  | Some b => fromstring w b
  | None => None
  end.

(** The decoder attempt alone. *)
Definition decoder_attempt (w : Env) (data : option bytes) : option Xml.element :=
  match apkutils2 w with
  | Some load_manifest_xml =>
      match load_manifest_xml data with
      | Some xml => fromstring w xml
      | None => None
      end
  | None => None
  end.

(** The loader as the specification words it: the decoder first, and
    plain XML when the decoder is absent or fails. *)
Definition spec_parse (w : Env) (data : option bytes) : option Xml.element :=
  match decoder_attempt w data with
  | Some root => Some root
  | None => plain_attempt w data
  end.

End SpecWords.

(* ------------------------------------------------------------------ *)
(** ** Concrete manifests and environments *)

Module Demo.
Import PyStr Permission Cli.

Definition CAMERA : str := lit "android.permission.CAMERA".
Definition INTERNET : str := lit "android.permission.INTERNET".

Definition uses_permission (n : str) : Xml.element :=
  Xml.Element (lit "uses-permission") [(ANDROID_NAME, n)] [].

Definition manifest_of (names : list str) : Xml.element :=
  Xml.Element (lit "manifest") [] (List.map uses_permission names).

Definition camera_xml : bytes := list_byte_of_string
  "<manifest xmlns:android='http://schemas.android.com/apk/res/android'><uses-permission android:name='android.permission.CAMERA'/></manifest>".

Definition both_xml : bytes := list_byte_of_string
  "<manifest xmlns:android='http://schemas.android.com/apk/res/android'><uses-permission android:name='android.permission.INTERNET'/><uses-permission android:name='android.permission.CAMERA'/></manifest>".

Definition empty_xml : bytes := list_byte_of_string
  "<manifest xmlns:android='http://schemas.android.com/apk/res/android'/>".

(** [<uses-permission android:name=''/>]: the attribute is there, its
    value is the empty string. *)
Definition blank_name_manifest : Xml.element := manifest_of [[]].

Definition bytes_eqb (a b : bytes) : bool :=
  String.eqb (string_of_list_byte a) (string_of_list_byte b).

(** A permission name that holds a closing tag of the console markup. *)
Definition TAGGED : str := lit "a[/b]".

Definition tagged_xml : bytes := list_byte_of_string
  "<manifest xmlns:android='http://schemas.android.com/apk/res/android'><uses-permission android:name='android.permission.CAMERA'/><uses-permission android:name='a[/b]'/></manifest>".

(** A stand-in for [etree.fromstring] that knows the four documents. *)
Definition demo_fromstring (b : bytes) : option Xml.element :=
  if bytes_eqb b camera_xml then Some (manifest_of [CAMERA])
  else if bytes_eqb b both_xml then Some (manifest_of [INTERNET; CAMERA])
  else if bytes_eqb b empty_xml then Some (manifest_of [])
  else if bytes_eqb b tagged_xml then Some (manifest_of [CAMERA; TAGGED])
  else None.

Definition demo_fs (p : path) : node :=
  if (255 <? N.of_nat (List.length p))%N then BadPath OSError
  else if eqb p (lit "camera.xml") then File camera_xml
  else if eqb p (lit "both.xml") then File both_xml
  else if eqb p (lit "empty.xml") then File empty_xml
  else if eqb p (lit "tagged.xml") then File tagged_xml
  else Missing.

(** Whether a text holds the two characters that start a closing tag. *)
Fixpoint has_closing_tag (s : str) : bool :=
  match s with
  | [] => false
  | c :: t =>
      match t with
      | [] => false
      | c' :: _ => ((c =? 91)%N && (c' =? 47)%N) || has_closing_tag t
      end
  end.

(** A stand-in for the console.  Like the markup of the console
    library it raises [MarkupError] on a closing tag with no opening
    one in an interpolated path or name (the texts of [OSError] and of
    [MarkupError] quote the path and the tag); it renders every other
    line and table. *)
Definition demo_console (e : event) : option exn :=
  let tagged :=
    match e with
    | Print (MsgApkNotFound p) | Print (MsgExtractError p)
    | Print (MsgJsonSaved p) | Print (MsgJsonWriteError p _) => has_closing_tag p
    | Print (MsgAdded ns) | Print (MsgRemoved ns) | Print (MsgNewDangerous ns) =>
        existsb has_closing_tag ns
    | Table _ rows => existsb (fun r => has_closing_tag (name r)) rows
    | _ => false
    end in
  if tagged then Some MarkupError else None.

(** No [apkutils2]; every file can be written. *)
Definition demo_env : Env :=
  {| fs := demo_fs;
     unzip_manifest := fun _ => None;
     apkutils2 := None;
     fromstring := demo_fromstring;
     can_write := fun _ => true;
     console := demo_console |}.

(** [apkutils2] is there, and rejects whatever is not binary AXML. *)
Definition decoder_env : Env :=
  {| fs := demo_fs;
     unzip_manifest := fun _ => None;
     apkutils2 := Some (fun _ => None);
     fromstring := demo_fromstring;
     can_write := fun _ => true;
     console := demo_console |}.

(** [--manifest camera.xml --compare-manifest empty.xml
     --fail-on-new-dangerous] *)
Definition all_removed_args : Args :=
  {| apk := None; manifest := Some (lit "camera.xml"); compare_apk := None;
     compare_manifest := Some (lit "empty.xml"); output := None; only := None;
     fail_on_new_dangerous := true; no_color := false |}.

(** [--manifest both.xml --compare-manifest both.xml --only normal
     --fail-on-new-dangerous --output report.json] *)
Definition filtered_args : Args :=
  {| apk := None; manifest := Some (lit "both.xml"); compare_apk := None;
     compare_manifest := Some (lit "both.xml");
     output := Some (lit "report.json"); only := Some [lit "normal"];
     fail_on_new_dangerous := true; no_color := false |}.

(** [--manifest camera.xml --compare-apk gone.apk --fail-on-new-dangerous] *)
Definition missing_compare_apk_args : Args :=
  {| apk := None; manifest := Some (lit "camera.xml");
     compare_apk := Some (lit "gone.apk"); compare_manifest := None;
     output := None; only := None;
     fail_on_new_dangerous := true; no_color := false |}.

(** [--manifest gone.xml] *)
Definition missing_manifest_args : Args :=
  {| apk := None; manifest := Some (lit "gone.xml"); compare_apk := None;
     compare_manifest := None; output := None; only := None;
     fail_on_new_dangerous := false; no_color := false |}.

(** [--manifest camera.xml --compare-manifest gone.xml] *)
Definition missing_compare_manifest_args : Args :=
  {| apk := None; manifest := Some (lit "camera.xml"); compare_apk := None;
     compare_manifest := Some (lit "gone.xml"); output := None; only := None;
     fail_on_new_dangerous := false; no_color := false |}.

(** As [demo_env], but no file can be written. *)
Definition readonly_env : Env :=
  {| fs := demo_fs;
     unzip_manifest := fun _ => None;
     apkutils2 := None;
     fromstring := demo_fromstring;
     can_write := fun _ => false;
     console := demo_console |}.

(** [--manifest empty.xml --compare-manifest tagged.xml
     --fail-on-new-dangerous --output report.json] *)
Definition policy_tagged_args : Args :=
  {| apk := None; manifest := Some (lit "empty.xml"); compare_apk := None;
     compare_manifest := Some (lit "tagged.xml");
     output := Some (lit "report.json"); only := None;
     fail_on_new_dangerous := true; no_color := false |}.

(** [--manifest tagged.xml --compare-manifest tagged.xml --only normal
     --fail-on-new-dangerous] *)
Definition filtered_tagged_args : Args :=
  {| apk := None; manifest := Some (lit "tagged.xml"); compare_apk := None;
     compare_manifest := Some (lit "tagged.xml");
     output := None; only := Some [lit "normal"];
     fail_on_new_dangerous := true; no_color := false |}.


(** [--manifest camera.xml --output r[/b].json] *)
Definition tagged_output_args : Args :=
  {| apk := None; manifest := Some (lit "camera.xml"); compare_apk := None;
     compare_manifest := None;
     output := Some (lit "r[/b].json"); only := None;
     fail_on_new_dangerous := false; no_color := false |}.

(** [--manifest camera.xml --output r.json] *)
Definition plain_output_args : Args :=
  {| apk := None; manifest := Some (lit "camera.xml"); compare_apk := None;
     compare_manifest := None;
     output := Some (lit "r.json"); only := None;
     fail_on_new_dangerous := false; no_color := false |}.

End Demo.

(* ------------------------------------------------------------------ *)
(** ** Notions used to state the properties *)

Module Notions.
Import PyStr Permission Cli.

(** A list in strictly ascending order: every element is below all the
    elements after it. *)
Definition ascending (l : list str) : Prop := StronglySorted lt l.

(** The names of a permission list, as the differ keys them. *)
Definition names (ps : list PermissionRecord) : list str := List.map name ps.

(** [d[n]["category"] == "dangerous"], false when [n] is not bound. *)
Definition is_dangerous_in (d : PyDict.dict PermissionRecord) (n : str) : bool :=
  match PyDict.get d n with
  | Some p => eqb (category p) (lit "dangerous")
  | None => false
  end.

Definition known_categories : list str :=
  [lit "normal"; lit "dangerous"; lit "signature"; lit "unknown"].

(** [if compare_apk or compare_manifest] *)
Definition compare_requested (a : Args) : bool :=
  is_some (compare_apk a) || is_some (compare_manifest a).

(** [if fail_on_new_dangerous and d["newDangerous"]] *)
Definition policy_fires (a : Args) (d : DiffResult) : bool :=
  fail_on_new_dangerous a && nonempty (newDangerous d).

(** The base set of a run whose base manifest parsed to [root]. *)
Definition base_set (a : Args) (root : Xml.element) : list PermissionRecord :=
  apply_only (only a) (List.map classify_permission (extract_permissions (Some root))).

(** The comparison set, from whatever [parse_manifest] returned. *)
Definition compare_set (manifest2 : option Xml.element) : list PermissionRecord :=
  List.map classify_permission (extract_permissions manifest2).

(** What is left of [analyze] once the diff [d] is there, lines
    208-230. *)
Definition finish (w : Env) (a : Args) (perms1 : list PermissionRecord)
           (d : DiffResult) : M unit :=
  let report := {| permissions := perms1; diff := Some d |} in
  print_diff w d ;;
  (if policy_fires a d then
     print w MsgPolicyFail ;;
     export_if_requested w a report ;;
     raise (Exit 3)
   else ret tt) ;;
  export_if_requested w a report ;;
  raise (Exit 0).

End Notions.

(* ------------------------------------------------------------------ *)
(** ** The rows drawn by [print_table] *)

Module Render.
Import PyStr Permission.

(** The color dictionary in the loop of [print_table]. *)
Definition ROW_COLORS : PyDict.dict str :=
  [ (lit "dangerous", lit "red");
    (lit "signature", lit "yellow");
    (lit "unknown", lit "dim");
    (lit "normal", lit "white") ].

(** [{...}.get(p["category"], "white")] *)
Definition color_of (cat : str) : str :=
  match PyDict.get ROW_COLORS cat with
  | Some c => c
  | None => lit "white"
  end.

(** The two marks of the last column, U+2705 and U+274C. *)
Definition CHECK_MARK : str := [9989%N].
Definition CROSS_MARK : str := [10060%N].

(** The four cells handed to [table.add_row]. *)
Record Row : Type := mkRow {
  cell_permission : str;
  cell_category : str;
  cell_group : str;
  cell_sensitive : str
}.

Definition table_row (p : PermissionRecord) : Row :=
  let color := color_of (category p) in
  {| cell_permission :=
       lit "[" ++ color ++ lit "]" ++ name p ++ lit "[/" ++ color ++ lit "]";
     cell_category := category p;
     cell_group :=
       match group p with
       | Some g => if truthy g then g else []
       | None => []
       end;
     cell_sensitive := if sensitive p then CHECK_MARK else CROSS_MARK |}.

(** The rows of the table, one per permission, in list order. *)
Definition table_rows (permissions : list PermissionRecord) : list Row :=
  List.map table_row permissions.

End Render.

(* ------------------------------------------------------------------ *)
(** ** Further notions: variations of the arguments, kinds of events *)

Module Notions2.
Import PyStr Permission Cli.

Definition with_manifest (a : Args) (m : option path) : Args :=
  {| apk := apk a; manifest := m; compare_apk := compare_apk a;
     compare_manifest := compare_manifest a; output := output a;
     only := only a; fail_on_new_dangerous := fail_on_new_dangerous a;
     no_color := no_color a |}.

Definition with_compare_manifest (a : Args) (m : option path) : Args :=
  {| apk := apk a; manifest := manifest a; compare_apk := compare_apk a;
     compare_manifest := m; output := output a;
     only := only a; fail_on_new_dangerous := fail_on_new_dangerous a;
     no_color := no_color a |}.

Definition with_no_color (a : Args) (b : bool) : Args :=
  {| apk := apk a; manifest := manifest a; compare_apk := compare_apk a;
     compare_manifest := compare_manifest a; output := output a;
     only := only a; fail_on_new_dangerous := fail_on_new_dangerous a;
     no_color := b |}.

Definition with_output (a : Args) (o : option path) : Args :=
  {| apk := apk a; manifest := manifest a; compare_apk := compare_apk a;
     compare_manifest := compare_manifest a; output := o;
     only := only a; fail_on_new_dangerous := fail_on_new_dangerous a;
     no_color := no_color a |}.

(** The one line of [load_manifest_from_apk] on a path it cannot load. *)
Definition load_failure_line (w : Env) (p : path) : event :=
  Print (match fs w p with
         | Missing | Unreachable _ => MsgApkNotFound p
         | _ => MsgExtractError p
         end).

(** What [read_bytes] raises on a node. *)
Definition read_error (n : node) : option exn :=
  match n with
  | File _ => None
  | Missing => Some FileNotFoundError
  | Unreachable e | BadPath e => Some e
  | Unreadable => Some OSError
  end.

(** Where an exception that nothing catches can come from: the console,
    the read of a manifest path, the existence check of an archive
    path. *)
Definition accounted (w : Env) (a : Args) (e : exn) : Prop :=
  (exists ev, console w ev = Some e) \/
  (exists p,
     ((apk a = None /\ manifest a = Some p) \/
      (compare_apk a = None /\ compare_manifest a = Some p)) /\
     read_error (fs w p) = Some e) \/
  (exists p, (apk a = Some p \/ compare_apk a = Some p) /\ fs w p = BadPath e).

(** The file that [export_if_requested] writes, if any. *)
Definition written (w : Env) (a : Args) (r : Report) : list event :=
  match output a with
  | Some p => if can_write w p then [JsonFile p r] else []
  | None => []
  end.

(** Of lines printed one after the other: those that come out, up to
    the first one that the console does not render, and the exception
    raised for that one. *)
Fixpoint rendered (w : Env) (ms : list message) : list message :=
  match ms with
  | [] => []
  | m :: rest =>
      match console w (Print m) with
      | None => m :: rendered w rest
      | Some _ => []
      end
  end.

Fixpoint first_failure (w : Env) (ms : list message) : option exn :=
  match ms with
  | [] => None
  | m :: rest =>
      match console w (Print m) with
      | None => first_failure w rest
      | Some e => Some e
      end
  end.

Definition is_json_file (e : event) : bool :=
  match e with JsonFile _ _ => true | _ => false end.

Definition is_table (e : event) : bool :=
  match e with Table _ _ => true | _ => false end.

(** What the extractor reads of a child element: its tag and the value
    of its Android [name] attribute. *)
Definition declaration (el : Xml.element) : str * option str :=
  (Xml.tag el, Xml.get el ANDROID_NAME).

Definition declarations (root : Xml.element) : list (str * option str) :=
  List.map declaration (Xml.children root).

(** An event list made of console lines only. *)
Definition prints_only (ev : list event) : Prop :=
  forall e, In e ev -> exists m, e = Print m.

(** [--manifest both.xml --compare-manifest both.xml
     --fail-on-new-dangerous] *)
Definition self_compare_args : Args :=
  {| apk := None; manifest := Some (lit "both.xml"); compare_apk := None;
     compare_manifest := Some (lit "both.xml"); output := None; only := None;
     fail_on_new_dangerous := true; no_color := false |}.

(** A record that is the classification of its own name. *)
Definition classified (p : PermissionRecord) : Prop :=
  p = classify_permission (name p).

End Notions2.

(* ------------------------------------------------------------------ *)
(** * Properties *)

(** ** Strings, [set] and [sorted] *)

Module PyStrFacts.
Import PyStr Notions.

Lemma eqb_eq (a b : str) : eqb a b = true <-> a = b.
Proof.
  unfold eqb. destruct (list_eq_dec N.eq_dec a b); split; congruence.
Qed.

Lemma eqb_refl (a : str) : eqb a a = true.
Proof. now apply eqb_eq. Qed.

Lemma eqb_neq (a b : str) : eqb a b = false <-> a <> b.
Proof.
  unfold eqb. destruct (list_eq_dec N.eq_dec a b); split; congruence.
Qed.

Lemma mem_In (x : str) (xs : list str) : mem x xs = true <-> In x xs.
Proof.
  unfold mem. rewrite existsb_exists. split.
  - intros [y [Hy He]]. apply eqb_eq in He. now subst.
  - intros H. exists x. split; [assumption | apply eqb_refl].
Qed.

Lemma mem_not_In (x : str) (xs : list str) : mem x xs = false <-> ~ In x xs.
Proof.
  rewrite <- mem_In. destruct (mem x xs); split; congruence.
Qed.

Lemma compare_eq_iff (a b : str) : compare a b = Eq <-> a = b.
Proof. apply list_compare_refl. exact N.compare_eq_iff. Qed.

Lemma compare_antisym (a b : str) : compare b a = CompOpp (compare a b).
Proof.
  apply list_compare_antisym.
  - exact N.compare_eq_iff.
  - intros x y. apply N.compare_antisym.
Qed.

Lemma N_compare_trans (x y z : N) (c : comparison) :
  N.compare x y = c -> N.compare y z = c -> N.compare x z = c.
Proof.
  destruct c; intros H1 H2.
  - apply N.compare_eq_iff in H1, H2. subst. apply N.compare_refl.
  - rewrite N.compare_lt_iff in *. lia.
  - rewrite N.compare_gt_iff in *. lia.
Qed.

Lemma lt_trans (a b c : str) : lt a b -> lt b c -> lt a c.
Proof.
  unfold lt, compare. apply list_compare_trans.
  - exact N.compare_eq_iff.
  - exact N_compare_trans.
  - intros x y. apply N.compare_antisym.
Qed.

Lemma lt_irrefl (a : str) : ~ lt a a.
Proof.
  unfold lt. intros H.
  assert (E : compare a a = Eq) by now apply compare_eq_iff.
  congruence.
Qed.

Lemma lt_asym (a b : str) : lt a b -> ~ lt b a.
Proof. intros H1 H2. exact (lt_irrefl (lt_trans H1 H2)). Qed.

Lemma lt_trichotomy (a b : str) : lt a b \/ a = b \/ lt b a.
Proof.
  unfold lt. destruct (compare a b) eqn:E.
  - right; left. now apply compare_eq_iff.
  - now left.
  - right; right. rewrite compare_antisym, E. reflexivity.
Qed.

Lemma ltb_lt (a b : str) : ltb a b = true <-> lt a b.
Proof. unfold ltb, lt. destruct (compare a b); split; congruence. Qed.

Lemma ltb_ge (a b : str) : ltb a b = false -> a = b \/ lt b a.
Proof.
  intros H. destruct (lt_trichotomy a b) as [L | [E | G]]; auto.
  apply ltb_lt in L. congruence.
Qed.

Lemma ascending_NoDup (l : list str) : ascending l -> NoDup l.
Proof.
  induction 1 as [| x l Hs IH Hall]; constructor; auto.
  intros Hin. rewrite Forall_forall in Hall.
  exact (lt_irrefl (Hall x Hin)).
Qed.

Lemma ascending_filter (f : str -> bool) (l : list str) :
  ascending l -> ascending (List.filter f l).
Proof.
  induction 1 as [| x l Hs IH Hall]; simpl.
  - constructor.
  - destruct (f x); [constructor |]; auto.
    rewrite Forall_forall in *. intros y Hy.
    apply filter_In in Hy. now apply Hall.
Qed.

(** Two ascending lists with the same elements are the same list. *)
Lemma ascending_unique (l1 l2 : list str) :
  ascending l1 -> ascending l2 ->
  (forall x, In x l1 <-> In x l2) -> l1 = l2.
Proof.
  intros H1. revert l2.
  induction H1 as [| x l1 Hs1 IH Hall1]; intros l2 H2 Hiff.
  - destruct l2 as [| y l2]; [reflexivity |].
    destruct (proj2 (Hiff y) (or_introl eq_refl)).
  - destruct H2 as [| y l2 Hs2 Hall2].
    + destruct (proj1 (Hiff x) (or_introl eq_refl)).
    + rewrite Forall_forall in Hall1, Hall2.
      assert (Hxy : x = y).
      { destruct (proj1 (Hiff x) (or_introl eq_refl)) as [E | Hx2]; [now subst |].
        destruct (proj2 (Hiff y) (or_introl eq_refl)) as [E | Hy1]; [assumption |].
        exfalso. exact (lt_asym (Hall1 y Hy1) (Hall2 x Hx2)). }
      subst y. f_equal. apply IH; [assumption |].
      intros z. split; intros Hz.
      * destruct (proj1 (Hiff z) (or_intror Hz)) as [E | Hz2]; [| assumption].
        subst z. exfalso. exact (lt_irrefl (Hall1 x Hz)).
      * destruct (proj2 (Hiff z) (or_intror Hz)) as [E | Hz1]; [| assumption].
        subst z. exfalso. exact (lt_irrefl (Hall2 x Hz)).
Qed.

Lemma pyset_In (x : str) (l : list str) : In x (pyset l) <-> In x l.
Proof.
  induction l as [| y l IH]; simpl; [tauto |].
  rewrite filter_In, IH. split.
  - tauto.
  - intros [E | Hin]; [now left |].
    destruct (list_eq_dec N.eq_dec y x) as [E | NE]; [now left |].
    right. split; [assumption |].
    apply eqb_neq in NE. now rewrite NE.
Qed.

Lemma pyset_NoDup (l : list str) : NoDup (pyset l).
Proof.
  induction l as [| y l IH]; simpl; constructor.
  - rewrite filter_In. intros [_ H]. now rewrite eqb_refl in H.
  - now apply NoDup_filter.
Qed.

Lemma insert_In (x y : str) (l : list str) :
  In y (insert x l) <-> y = x \/ In y l.
Proof.
  induction l as [| z l IH]; simpl.
  - intuition congruence.
  - destruct (ltb z x); simpl; rewrite ?IH; intuition congruence.
Qed.

Lemma sorted_In (x : str) (l : list str) : In x (sorted l) <-> In x l.
Proof.
  induction l as [| y l IH]; simpl; [tauto |].
  rewrite insert_In, IH. intuition congruence.
Qed.

Lemma insert_ascending (x : str) (l : list str) :
  ascending l -> ~ In x l -> ascending (insert x l).
Proof.
  induction 1 as [| y l Hs IH Hall]; intros Hnin; simpl.
  - repeat constructor.
  - destruct (ltb y x) eqn:E.
    + apply ltb_lt in E. constructor.
      * apply IH. intros H. apply Hnin. now right.
      * rewrite Forall_forall in *. intros z Hz.
        apply insert_In in Hz. destruct Hz as [-> | Hz]; auto.
    + apply ltb_ge in E. destruct E as [-> | Hlt].
      * exfalso. apply Hnin. now left.
      * constructor; [now constructor |].
        constructor; [assumption |].
        rewrite Forall_forall in *. intros z Hz.
        exact (lt_trans Hlt (Hall z Hz)).
Qed.

Lemma sorted_ascending (l : list str) : NoDup l -> ascending (sorted l).
Proof.
  induction 1 as [| x l Hnin Hnd IH]; simpl.
  - constructor.
  - apply insert_ascending; [assumption |]. now rewrite sorted_In.
Qed.

(** [sorted(set(xs))] does not depend on the order in which the set is
    iterated: any duplicate-free enumeration of the same elements sorts
    to the same list. *)
Lemma sorted_set_any_order (xs enum : list str) :
  NoDup enum -> (forall x, In x enum <-> In x xs) ->
  sorted enum = sorted (pyset xs).
Proof.
  intros Hnd Hiff. apply ascending_unique.
  - now apply sorted_ascending.
  - apply sorted_ascending, pyset_NoDup.
  - intros x. now rewrite !sorted_In, pyset_In.
Qed.

(** *** [strip] removes exactly the whitespace at both ends *)

Lemma lstrip_split (s : str) :
  exists pre, s = pre ++ lstrip s /\ forallb isspace pre = true.
Proof.
  induction s as [| c s [pre [Hs Hpre]]]; simpl.
  - now exists [].
  - destruct (isspace c) eqn:E.
    + exists (c :: pre). simpl. rewrite E, Hpre. split; [now f_equal | reflexivity].
    + now exists [].
Qed.

Lemma lstrip_head (s : str) (c : char) (t : str) :
  lstrip s = c :: t -> isspace c = false.
Proof.
  induction s as [| c' s IH]; simpl; [discriminate |].
  destruct (isspace c') eqn:E; [assumption |].
  now intros [= <- <-].
Qed.

Lemma forallb_rev {A} (f : A -> bool) (l : list A) :
  forallb f (rev l) = forallb f l.
Proof.
  induction l as [| x l IH]; simpl; [reflexivity |].
  rewrite forallb_app, IH. simpl. rewrite andb_true_r. apply andb_comm.
Qed.

(** [s] is whitespace, then [strip s], then whitespace; [strip s]
    neither starts nor ends with whitespace. *)
Lemma strip_split (s : str) :
  exists pre post,
    s = pre ++ strip s ++ post /\
    forallb isspace pre = true /\ forallb isspace post = true /\
    (forall c t, strip s = c :: t -> isspace c = false) /\
    (forall c t, strip s = t ++ [c] -> isspace c = false).
Proof.
  unfold strip, rstrip.
  destruct (lstrip_split s) as [pre [Hs Hpre]].
  destruct (lstrip_split (rev (lstrip s))) as [post [Hr Hpost]].
  set (u := lstrip s) in *. set (v := lstrip (rev u)) in *.
  assert (Hu : u = rev v ++ rev post).
  { rewrite <- rev_app_distr, <- Hr. now rewrite rev_involutive. }
  exists pre, (rev post). repeat split.
  - now rewrite <- Hu.
  - exact Hpre.
  - now rewrite forallb_rev.
  - intros c t Hc. rewrite Hc in Hu. simpl in Hu.
    apply (lstrip_head s (t := t ++ rev post)). exact Hu.
  - intros c t Hc.
    assert (Hv : v = c :: rev t).
    { rewrite <- (rev_involutive v), Hc, rev_app_distr. reflexivity. }
    exact (lstrip_head (rev u) Hv).
Qed.

End PyStrFacts.

(** ** Dictionaries *)

Module PyDictFacts.
Import PyStr PyStrFacts.

Section Facts.
Variable V : Type.
Implicit Types (d : PyDict.dict V) (k : str) (v : V).

Lemma contains_In d k : PyDict.contains d k = true <-> In k (PyDict.keys d).
Proof. apply mem_In. Qed.

Lemma contains_not_In d k : PyDict.contains d k = false <-> ~ In k (PyDict.keys d).
Proof. apply mem_not_In. Qed.

Lemma get_None d k : PyDict.get d k = None <-> ~ In k (PyDict.keys d).
Proof.
  induction d as [| [k' v'] d IH]; simpl; [tauto |].
  destruct (eqb k' k) eqn:E.
  - apply eqb_eq in E. split; [discriminate | intros H; exfalso; auto].
  - apply eqb_neq in E. rewrite IH. tauto.
Qed.

Lemma get_In d k v : PyDict.get d k = Some v -> In (k, v) d.
Proof.
  induction d as [| [k' v'] d IH]; simpl; [discriminate |].
  destruct (eqb k' k) eqn:E.
  - apply eqb_eq in E. intros [= ->]. left. now subst.
  - intros H. right. auto.
Qed.

Lemma keys_set_old d k v :
  In k (PyDict.keys d) -> PyDict.keys (PyDict.set d k v) = PyDict.keys d.
Proof.
  induction d as [| [k' v'] d IH]; simpl; [tauto |].
  intros H. destruct (eqb k' k) eqn:E; simpl; [reflexivity |].
  apply eqb_neq in E. f_equal. apply IH. tauto.
Qed.

Lemma keys_set_new d k v :
  ~ In k (PyDict.keys d) -> PyDict.keys (PyDict.set d k v) = PyDict.keys d ++ [k].
Proof.
  induction d as [| [k' v'] d IH]; simpl; [reflexivity |].
  intros H. destruct (eqb k' k) eqn:E; simpl.
  - apply eqb_eq in E. tauto.
  - f_equal. apply IH. tauto.
Qed.

Lemma keys_set_In d k v k' :
  In k' (PyDict.keys (PyDict.set d k v)) <-> k' = k \/ In k' (PyDict.keys d).
Proof.
  destruct (in_dec (list_eq_dec N.eq_dec) k (PyDict.keys d)) as [Hin | Hnin].
  - rewrite keys_set_old by assumption. intuition (subst; auto).
  - rewrite keys_set_new, in_app_iff by assumption. simpl. intuition congruence.
Qed.

Lemma keys_set_NoDup d k v :
  NoDup (PyDict.keys d) -> NoDup (PyDict.keys (PyDict.set d k v)).
Proof.
  intros Hnd.
  destruct (in_dec (list_eq_dec N.eq_dec) k (PyDict.keys d)) as [Hin | Hnin].
  - now rewrite keys_set_old.
  - rewrite keys_set_new by assumption.
    apply NoDup_app; [assumption | repeat constructor; auto |].
    intros x Hx [<- | []]. auto.
Qed.

Lemma set_In d k v k' v' :
  In (k', v') (PyDict.set d k v) -> (k' = k /\ v' = v) \/ In (k', v') d.
Proof.
  induction d as [| [k0 v0] d IH]; simpl.
  - intros [[= <- <-] | []]. now left.
  - destruct (eqb k0 k) eqn:E; simpl.
    + apply eqb_eq in E. subst k0.
      intros [[= <- <-] | H]; [now left | right; now right].
    + intros [H | H]; [right; now left |].
      destruct (IH H) as [? | ?]; [now left | right; now right].
Qed.

End Facts.

Section Comprehension.
Variable A : Type.
Variable key : A -> str.

Let step := fun (d : PyDict.dict A) (p : A) => PyDict.set d (key p) p.

Lemma fold_keys_In (ps : list A) (d : PyDict.dict A) (k : str) :
  In k (PyDict.keys (fold_left step ps d)) <->
  In k (PyDict.keys d) \/ In k (List.map key ps).
Proof.
  revert d. induction ps as [| p ps IH]; intros d; simpl; [tauto |].
  rewrite IH. unfold step. rewrite keys_set_In. intuition congruence.
Qed.

Lemma fold_keys_NoDup (ps : list A) (d : PyDict.dict A) :
  NoDup (PyDict.keys d) -> NoDup (PyDict.keys (fold_left step ps d)).
Proof.
  revert d. induction ps as [| p ps IH]; intros d Hd; simpl; [assumption |].
  apply IH. now apply keys_set_NoDup.
Qed.

Lemma fold_keys_fresh (ps : list A) (d : PyDict.dict A) :
  NoDup (PyDict.keys d ++ List.map key ps) ->
  PyDict.keys (fold_left step ps d) = PyDict.keys d ++ List.map key ps.
Proof.
  revert d. induction ps as [| p ps IH]; intros d Hnd; simpl.
  - now rewrite app_nil_r.
  - assert (Hfresh : ~ In (key p) (PyDict.keys d)).
    { intros Hin. apply NoDup_remove_2 in Hnd. apply Hnd.
      apply in_or_app. now left. }
    rewrite IH; unfold step; rewrite keys_set_new by assumption.
    + now rewrite <- app_assoc.
    + rewrite <- app_assoc. exact Hnd.
Qed.

Lemma fold_entries (ps : list A) (d : PyDict.dict A) (k : str) (p : A) :
  In (k, p) (fold_left step ps d) -> In (k, p) d \/ (In p ps /\ key p = k).
Proof.
  revert d. induction ps as [| q ps IH]; intros d; simpl; [tauto |].
  intros H. destruct (IH _ H) as [H1 | [H1 H2]].
  - unfold step in H1. apply set_In in H1.
    destruct H1 as [[-> ->] | H1]; [right | left]; auto.
  - right. auto.
Qed.

(** The keys of [{key(p): p for p in ps}] are the values [key(p)]. *)
Lemma comprehension_keys_In (ps : list A) (k : str) :
  In k (PyDict.keys (PyDict.comprehension key ps)) <-> In k (List.map key ps).
Proof.
  unfold PyDict.comprehension. fold step. rewrite fold_keys_In. simpl. tauto.
Qed.

Lemma comprehension_keys_NoDup (ps : list A) :
  NoDup (PyDict.keys (PyDict.comprehension key ps)).
Proof. apply fold_keys_NoDup. constructor. Qed.

(** When no two elements share a key, the keys come in list order. *)
Lemma comprehension_keys (ps : list A) :
  NoDup (List.map key ps) ->
  PyDict.keys (PyDict.comprehension key ps) = List.map key ps.
Proof. intros H. apply (fold_keys_fresh ps []). exact H. Qed.

(** A value found in the comprehension is an element with that key. *)
Lemma comprehension_get (ps : list A) (k : str) (p : A) :
  PyDict.get (PyDict.comprehension key ps) k = Some p -> In p ps /\ key p = k.
Proof.
  intros H. apply get_In in H.
  destruct (fold_entries ps [] k p H) as [[] | ?]. assumption.
Qed.

End Comprehension.

End PyDictFacts.

(** ** The extractor *)

Module ExtractFacts.
Import PyStr PyStrFacts Permission Notions.

Lemma findall_In (root el : Xml.element) (t : str) :
  In el (Xml.findall root t) <-> In el (Xml.children root) /\ Xml.tag el = t.
Proof. unfold Xml.findall. rewrite filter_In, eqb_eq. tauto. Qed.

Lemma collect_In (el : Xml.element) (n : str) :
  In n (collect el) <->
  exists v, Xml.get el ANDROID_NAME = Some v /\ v <> [] /\ n = strip v.
Proof.
  unfold collect. destruct (Xml.get el ANDROID_NAME) as [v |].
  - destruct v as [| c v]; simpl.
    + split; [tauto | intros [v [[= <-] [H _]]]; congruence].
    + split.
      * intros [<- | []]. eexists. repeat split. discriminate.
      * intros [v' [[= <-] [_ ->]]]. now left.
  - simpl. split; [tauto | intros [v [H _]]; discriminate].
Qed.

(** What ends up in [perms]: the trimmed non-empty name values of the
    children of the root that carry one of the two tags. *)
Lemma collected_In (root : Xml.element) (n : str) :
  In n (collected root) <->
  exists el v,
    In el (Xml.children root) /\ In (Xml.tag el) PERMISSION_TAGS /\
    Xml.get el ANDROID_NAME = Some v /\ v <> [] /\ n = strip v.
Proof.
  unfold collected. rewrite in_flat_map. split.
  - intros [t [Ht Hn]]. apply in_flat_map in Hn. destruct Hn as [el [Hel Hn]].
    apply findall_In in Hel. destruct Hel as [Hc <-].
    apply collect_In in Hn. destruct Hn as [v Hv].
    exists el, v. tauto.
  - intros [el [v [Hc [Ht Hv]]]]. exists (Xml.tag el). split; [assumption |].
    apply in_flat_map. exists el. split.
    + apply findall_In. tauto.
    + apply collect_In. now exists v.
Qed.

(** C3, as stated, fails on [<uses-permission android:name=''/>]: the
    attribute is present, so the specification's wording yields the
    one-element sequence holding the empty string, while the guard
    [if name:] of the code drops the element. *)
Lemma extract_blank_name_differs :
  extract_permissions (Some Demo.blank_name_manifest) = [] /\
  SpecWords.spec_extract (Some Demo.blank_name_manifest) = [[]] /\
  extract_permissions (Some Demo.blank_name_manifest)
    <> SpecWords.spec_extract (Some Demo.blank_name_manifest).
Proof.
  assert (E1 : extract_permissions (Some Demo.blank_name_manifest) = [])
    by (vm_compute; reflexivity).
  assert (E2 : SpecWords.spec_extract (Some Demo.blank_name_manifest) = [[]])
    by (vm_compute; reflexivity).
  rewrite E1, E2. repeat split. discriminate.
Qed.

(** C3 (amended): for every tree, [extract_permissions] returns a
    strictly ascending (hence duplicate-free) sequence whose members are
    exactly the trimmed values of the Android [name] attribute of those
    children of the root tagged [uses-permission] or
    [uses-permission-sdk-23] whose attribute is present and non-empty;
    this is [sorted(set(...))] of those values whatever the iteration
    order of the set; an absent tree gives the empty sequence. *)
Theorem extract_permissions_sorted_set :
  (forall root : Xml.element,
     ascending (extract_permissions (Some root)) /\
     (forall n,
        In n (extract_permissions (Some root)) <->
        exists el v,
          In el (Xml.children root) /\ In (Xml.tag el) PERMISSION_TAGS /\
          Xml.get el ANDROID_NAME = Some v /\ v <> [] /\ n = strip v) /\
     (forall enum,
        NoDup enum -> (forall n, In n enum <-> In n (collected root)) ->
        extract_permissions (Some root) = sorted enum)) /\
  extract_permissions None = [].
Proof.
  split; [| reflexivity].
  intros root. unfold extract_permissions. repeat split.
  - apply sorted_ascending, pyset_NoDup.
  - rewrite sorted_In, pyset_In. apply collected_In.
  - rewrite sorted_In, pyset_In. apply collected_In.
  - intros enum Hnd Hiff. symmetry. now apply sorted_set_any_order.
Qed.

(** The same elements under the specification's wording whenever no
    matching element carries an empty name. *)
Lemma extract_agrees_with_spec (root : Xml.element) :
  (forall el, In el (Xml.children root) ->
              Xml.get el ANDROID_NAME <> Some []) ->
  extract_permissions (Some root) = SpecWords.spec_extract (Some root).
Proof.
  intros Hne. unfold extract_permissions, SpecWords.spec_extract, collected.
  do 2 f_equal. apply flat_map_ext. intros t.
  unfold Xml.findall.
  induction (Xml.children root) as [| el els IH]; simpl; [reflexivity |].
  assert (Hel : collect el = SpecWords.spec_collect el).
  { unfold collect, SpecWords.spec_collect.
    destruct (Xml.get el ANDROID_NAME) as [[| c v] |] eqn:E; try reflexivity.
    exfalso. apply (Hne el); [now left | assumption]. }
  destruct (eqb (Xml.tag el) t); simpl.
  - rewrite Hel, IH; [reflexivity |]. intros e He. apply Hne. now right.
  - apply IH. intros e He. apply Hne. now right.
Qed.

End ExtractFacts.

(** ** The classifier *)

Module ClassifyFacts.
Import PyStr PyStrFacts Permission Notions.

Lemma catalog_keys_NoDup : NoDup (PyDict.keys PERMISSION_CATEGORIES).
Proof.
  apply (NoDup_count_occ' (list_eq_dec N.eq_dec)).
  intros x Hx. simpl in Hx.
  repeat (destruct Hx as [<- | Hx]; [vm_compute; reflexivity |]).
  destruct Hx.
Qed.

Lemma catalog_categories (n c g : str) :
  PyDict.get PERMISSION_CATEGORIES n = Some (c, g) ->
  In c [lit "normal"; lit "dangerous"; lit "signature"].
Proof.
  intros H. apply PyDictFacts.get_In in H. simpl in H.
  repeat (destruct H as [[= <- <- <-] | H]; [simpl; tauto |]).
  destruct H.
Qed.

(** C4: [classify_permission] is total; the record keeps the name; its
    category and group are those of the catalog entry bound to exactly
    this name, or [unknown] and no group when the catalog has no such
    key; [sensitive] holds exactly for [dangerous] and [signature]; the
    category is always one of the four. *)
Theorem classify_permission_spec (n : str) :
  let r := classify_permission n in
  name r = n /\
  match PyDict.get PERMISSION_CATEGORIES n with
  | Some (c, g) =>
      In (n, (c, g)) PERMISSION_CATEGORIES /\ category r = c /\ group r = Some g
  | None =>
      ~ In n (PyDict.keys PERMISSION_CATEGORIES) /\
      category r = lit "unknown" /\ group r = None
  end /\
  (sensitive r = true <->
   category r = lit "dangerous" \/ category r = lit "signature") /\
  In (category r) known_categories.
Proof.
  unfold classify_permission.
  destruct (PyDict.get PERMISSION_CATEGORIES n) as [[c g] |] eqn:E; cbn zeta beta iota.
  - cbn [name category group sensitive]. repeat split.
    + now apply PyDictFacts.get_In.
    + rewrite mem_In. simpl. intuition congruence.
    + rewrite mem_In. simpl. intuition congruence.
    + apply catalog_categories in E. unfold known_categories. simpl in *. tauto.
  - cbn [name category group sensitive]. repeat split.
    + now apply PyDictFacts.get_None.
    + intros H. vm_compute in H. discriminate.
    + intros [H | H]; vm_compute in H; discriminate.
    + unfold known_categories. simpl. tauto.
Qed.

End ClassifyFacts.

(** ** The differ *)

Module DiffFacts.
Import PyStr PyStrFacts PyDictFacts Permission Notions.

Lemma dangerous_of_bound (d : PyDict.dict PermissionRecord) (ns : list str) :
  (forall n, In n ns -> In n (PyDict.keys d)) ->
  dangerous_of d ns = Some (List.filter (is_dangerous_in d) ns).
Proof.
  induction ns as [| n ns IH]; intros Hb; simpl; [reflexivity |].
  unfold is_dangerous_in at 1.
  destruct (PyDict.get d n) as [p |] eqn:E.
  - rewrite IH by (intros; apply Hb; now right).
    now destruct (eqb (category p) (lit "dangerous")).
  - apply get_None in E. exfalso. apply E, Hb. now left.
Qed.

(** What [diff_permissions] computes, in terms of the two name lists. *)
Lemma diff_permissions_facts (old new : list PermissionRecord) :
  exists d,
    diff_permissions old new = Some d /\
    (forall n, In n (added d) <-> In n (names new) /\ ~ In n (names old)) /\
    (forall n, In n (removed d) <-> In n (names old) /\ ~ In n (names new)) /\
    (forall n, In n (newDangerous d) <->
       In n (added d) /\ is_dangerous_in (PyDict.comprehension name new) n = true) /\
    (ascending (names new) -> ascending (added d) /\ ascending (newDangerous d)) /\
    (ascending (names old) -> ascending (removed d)).
Proof.
  unfold diff_permissions.
  set (old_names := PyDict.comprehension name old).
  set (new_names := PyDict.comprehension name new).
  set (add := List.filter (fun n => negb (PyDict.contains old_names n))
                          (PyDict.keys new_names)).
  set (rem := List.filter (fun n => negb (PyDict.contains new_names n))
                          (PyDict.keys old_names)).
  assert (Hadd : forall n, In n add <-> In n (names new) /\ ~ In n (names old)).
  { intros n. unfold add. rewrite filter_In, negb_true_iff, contains_not_In.
    unfold old_names, new_names. now rewrite !comprehension_keys_In. }
  assert (Hrem : forall n, In n rem <-> In n (names old) /\ ~ In n (names new)).
  { intros n. unfold rem. rewrite filter_In, negb_true_iff, contains_not_In.
    unfold old_names, new_names. now rewrite !comprehension_keys_In. }
  rewrite dangerous_of_bound.
  2:{ intros n Hn. apply filter_In in Hn. tauto. }
  eexists. split; [reflexivity |]. cbn [added removed newDangerous].
  split; [exact Hadd |]. split; [exact Hrem |].
  split; [| split].
  - intros n. apply filter_In.
  - intros Hasc.
    assert (Ha : ascending add).
    { unfold add, new_names.
      rewrite comprehension_keys by (apply ascending_NoDup; exact Hasc).
      now apply ascending_filter. }
    split; [assumption | now apply ascending_filter].
  - intros Hasc. unfold rem, old_names.
    rewrite comprehension_keys by (apply ascending_NoDup; exact Hasc).
    now apply ascending_filter.
Qed.

Lemma is_dangerous_in_record (new : list PermissionRecord) (n : str) :
  is_dangerous_in (PyDict.comprehension name new) n = true <->
  exists p, PyDict.get (PyDict.comprehension name new) n = Some p /\
            In p new /\ name p = n /\ category p = lit "dangerous".
Proof.
  unfold is_dangerous_in. split.
  - destruct (PyDict.get (PyDict.comprehension name new) n) as [p |] eqn:E;
      [| discriminate].
    intros Hd. apply eqb_eq in Hd. exists p.
    destruct (comprehension_get name new n E) as [Hin Hname]. tauto.
  - intros [p [-> [_ [_ Hc]]]]. now apply eqb_eq.
Qed.

(** C5: on every pair of record lists [diff_permissions] returns a
    result (no [KeyError]); [added] holds the names of [new] that are
    not names of [old], [removed] the names of [old] that are not names
    of [new], and no name is in both; the members of [newDangerous] are
    the members of [added] whose record in [new] has category
    [dangerous]; when the names of [new] (of [old]) are in ascending
    order, as the extractor leaves them, so are [added] and
    [newDangerous] (so is [removed]). *)
Theorem diff_permissions_spec (old new : list PermissionRecord) :
  exists d,
    diff_permissions old new = Some d /\
    (forall n, In n (added d) <-> In n (names new) /\ ~ In n (names old)) /\
    (forall n, In n (removed d) <-> In n (names old) /\ ~ In n (names new)) /\
    (forall n, In n (added d) -> ~ In n (removed d)) /\
    (forall n, In n (newDangerous d) <->
       In n (added d) /\
       exists p, PyDict.get (PyDict.comprehension name new) n = Some p /\
                 In p new /\ name p = n /\ category p = lit "dangerous") /\
    (ascending (names new) -> ascending (added d) /\ ascending (newDangerous d)) /\
    (ascending (names old) -> ascending (removed d)).
Proof.
  destruct (diff_permissions_facts old new)
    as [d [Hd [Hadd [Hrem [Hnd [Hsn Hso]]]]]].
  exists d. repeat (split; [assumption |]).
  split; [| split; [| split; assumption]].
  - intros n Ha Hr. apply Hadd in Ha. apply Hrem in Hr. tauto.
  - intros n. rewrite Hnd, is_dangerous_in_record. tauto.
Qed.

(** The sets that [analyze] hands to the differ are in ascending order
    of name: classification keeps the extractor's order and the category
    filter only drops records. *)
Lemma classified_name (n : str) : name (classify_permission n) = n.
Proof.
  unfold classify_permission.
  now destruct (PyDict.get PERMISSION_CATEGORIES n) as [[c g] |].
Qed.

Lemma classified_names (ns : list str) :
  names (List.map classify_permission ns) = ns.
Proof.
  unfold names. rewrite map_map. rewrite <- (map_id ns) at 2.
  apply map_ext. exact classified_name.
Qed.

Lemma names_filter_ascending (f : PermissionRecord -> bool)
      (ps : list PermissionRecord) :
  ascending (names ps) -> ascending (names (List.filter f ps)).
Proof.
  unfold names, ascending.
  induction ps as [| p ps IH]; simpl; intros H; [constructor |].
  inversion H as [| x l Hs Hall]; subst.
  destruct (f p); simpl; [| now apply IH].
  constructor; [now apply IH |].
  rewrite Forall_forall in Hall |- *. intros y Hy. apply Hall.
  apply in_map_iff in Hy. destruct Hy as [q [<- Hq]].
  apply in_map. apply filter_In in Hq. tauto.
Qed.

Lemma extracted_ascending (t : option Xml.element) :
  ascending (extract_permissions t).
Proof.
  destruct t as [root |]; [| constructor].
  apply sorted_ascending, pyset_NoDup.
Qed.

Lemma pipeline_set_ascending (o : option (list str)) (t : option Xml.element) :
  ascending (names (Cli.apply_only o (List.map classify_permission (extract_permissions t)))).
Proof.
  assert (H : ascending (names (List.map classify_permission (extract_permissions t)))).
  { rewrite classified_names. apply extracted_ascending. }
  unfold Cli.apply_only. destruct o as [[| c cs] |]; try assumption.
  now apply names_filter_ascending.
Qed.

(** [diff_permissions_spec] at base [INTERNET], comparison [CAMERA,
    INTERNET] given in the extractor's order. *)
Lemma diff_permissions_spec_witness :
  exists d,
    diff_permissions [classify_permission Demo.INTERNET]
      [classify_permission Demo.CAMERA; classify_permission Demo.INTERNET] = Some d /\
    ascending (added d) /\ ascending (newDangerous d) /\ ascending (removed d).
Proof.
  destruct (diff_permissions_spec [classify_permission Demo.INTERNET]
              [classify_permission Demo.CAMERA; classify_permission Demo.INTERNET])
    as [d [Hd [_ [_ [_ [_ [Hnew Hold]]]]]]].
  exists d. split; [exact Hd |].
  assert (A1 : ascending (names [classify_permission Demo.CAMERA;
                                 classify_permission Demo.INTERNET])).
  { repeat constructor. }
  assert (A2 : ascending (names [classify_permission Demo.INTERNET])).
  { repeat constructor. }
  destruct (Hnew A1) as [Ha Hn]. repeat split; auto.
Defined.

End DiffFacts.

(** ** The loader and the orchestrator *)

Module CliFacts.
Import PyStr PyStrFacts Permission Cli Notions.

(** *** Running a sequence *)

Lemma bind_Ok {A B} (ev : list event) (x : A) (f : A -> M B) :
  bind (ev, Ok x) f = (ev ++ trace (f x), status (f x)).
Proof. unfold bind, trace, status. now destruct (f x). Qed.

Lemma bind_Raise {A B} (ev : list event) (e : raised) (f : A -> M B) :
  bind (ev, Raise e) f = (ev, Raise e).
Proof. reflexivity. Qed.

Lemma status_bind {A B} (m : M A) (f : A -> M B) :
  status (bind m f) =
  match status m with
  | Ok x => status (f x)
  | Raise e => Raise e
  end.
Proof.
  destruct m as [ev [x | e]]; [rewrite bind_Ok |]; reflexivity.
Qed.

Lemma run_eta {A} (m : M A) : m = (trace m, status m).
Proof. now destruct m. Qed.

Lemma bind_run {A B} (m : M A) (f : A -> M B) :
  bind m f =
  match status m with
  | Ok x => (trace m ++ trace (f x), status (f x))
  | Raise e => (trace m, Raise e)
  end.
Proof.
  destruct m as [ev [x | e]]; [rewrite bind_Ok |]; reflexivity.
Qed.

(** *** [console.print] *)

Lemma print_run (w : Env) (m : message) :
  print w m =
  match console w (Print m) with
  | None => ([Print m], Ok tt)
  | Some e => ([], Raise (Error e))
  end.
Proof. unfold print. now destruct (console w (Print m)). Qed.

Lemma print_rendered (w : Env) (m : message) :
  console w (Print m) = None -> print w m = ([Print m], Ok tt).
Proof. intros H. now rewrite print_run, H. Qed.

Lemma print_status_Ok (w : Env) (m : message) :
  status (print w m) = Ok tt <-> console w (Print m) = None.
Proof.
  rewrite print_run. destruct (console w (Print m)); cbn; split; congruence.
Qed.

Lemma print_table_run (w : Env) (perms : list PermissionRecord) (title : str) :
  print_table w perms title =
  match console w (Table title perms) with
  | None => ([Table title perms], Ok tt)
  | Some e => ([], Raise (Error e))
  end.
Proof. unfold print_table. now destruct (console w (Table title perms)). Qed.

(** *** [parse_manifest] *)

Lemma parse_manifest_run (w : Env) (data : option bytes) :
  parse_manifest w data =
  match parse_attempt w data with
  | Some root => ([], Ok (Some root))
  | None =>
      match console w (Print (MsgParseError data)) with
      | None => ([Print (MsgParseError data)], Ok None)
      | Some e => ([], Raise (Error e))
      end
  end.
Proof.
  unfold parse_manifest. destruct (parse_attempt w data); [reflexivity |].
  rewrite print_run. now destruct (console w (Print (MsgParseError data))).
Qed.

Lemma parse_manifest_Some (w : Env) (data : option bytes) (root : Xml.element) :
  parse_attempt w data = Some root ->
  parse_manifest w data = ([], Ok (Some root)).
Proof. intros H. now rewrite parse_manifest_run, H. Qed.

Lemma parse_manifest_None (w : Env) (data : option bytes) :
  parse_attempt w data = None ->
  console w (Print (MsgParseError data)) = None ->
  parse_manifest w data = ([Print (MsgParseError data)], Ok None).
Proof. intros H Hc. now rewrite parse_manifest_run, H, Hc. Qed.

(** When [parse_manifest] returns, it returns the result of its one
    attempt. *)
Lemma parse_manifest_returns (w : Env) (data : option bytes)
      (m : option Xml.element) :
  status (parse_manifest w data) = Ok m -> m = parse_attempt w data.
Proof.
  rewrite parse_manifest_run.
  destruct (parse_attempt w data); [now intros [= <-] |].
  destruct (console w (Print (MsgParseError data))); [discriminate |].
  now intros [= <-].
Qed.

(** *** The stages of [analyze] *)

Lemma base_stage_ok (w : Env) (a : Args) (e1 : list event)
      (data1 : option bytes) (root : Xml.element) :
  load_base w a = (e1, Ok data1) ->
  parse_attempt w data1 = Some root ->
  console w (Table (lit "Permissions (Base)") (base_set a root)) = None ->
  base_stage w a =
    ((if no_color a then [SetNoColor] else [])
       ++ e1 ++ [Table (lit "Permissions (Base)") (base_set a root)],
     Ok (base_set a root)).
Proof.
  intros Hload Hparse Htable. unfold base_stage.
  rewrite Hload. unfold when.
  destruct (no_color a); cbn -[extract_permissions classify_permission lit print_table];
    rewrite (parse_manifest_Some _ _ Hparse);
    cbn -[extract_permissions classify_permission lit print_table];
    fold (base_set a root); rewrite print_table_run, Htable; cbn;
    now rewrite ?app_nil_r.
Qed.

Lemma compare_stage_ok (w : Env) (a : Args) (perms1 : list PermissionRecord)
      (e2 : list event) (data2 : option bytes) (m2 : option Xml.element)
      (d : DiffResult) :
  load_compare w a = (e2, Ok data2) ->
  status (parse_manifest w data2) = Ok m2 ->
  diff_permissions perms1 (compare_set m2) = Some d ->
  compare_stage w a perms1 = (e2 ++ trace (parse_manifest w data2), Ok d).
Proof.
  intros Hload Hparse Hdiff. unfold compare_stage. rewrite Hload, bind_Ok.
  rewrite bind_run, Hparse.
  fold (compare_set m2). rewrite Hdiff.
  cbn. now rewrite app_nil_r.
Qed.

(** A run that gets as far as the diff. *)
Lemma analyze_compared (w : Env) (a : Args) (ev1 ev2 : list event)
      (perms1 : list PermissionRecord) (d : DiffResult) :
  base_stage w a = (ev1, Ok perms1) ->
  compare_requested a = true ->
  compare_stage w a perms1 = (ev2, Ok d) ->
  analyze w a =
    (ev1 ++ ev2 ++ trace (finish w a perms1 d), status (finish w a perms1 d)).
Proof.
  intros Hbase Hreq Hcmp. unfold analyze, finish, policy_fires.
  unfold compare_requested in Hreq. rewrite Hbase.
  cbv beta iota zeta delta [bind]. rewrite Hreq, Hcmp.
  destruct (print_diff w d) as [evp [[] | ?]];
    [| cbn; now rewrite ?app_nil_r].
  destruct (fail_on_new_dangerous a && nonempty (newDangerous d)).
  - destruct (print w MsgPolicyFail) as [evq [[] | ?]];
      [| cbn; now rewrite ?app_nil_r, <- ?app_assoc].
    cbv beta iota zeta delta [ret raise].
    destruct (export_if_requested w a {| permissions := perms1; diff := Some d |})
      as [eve [[] | ?]];
      cbn; now rewrite ?app_nil_r, <- ?app_assoc.
  - cbv beta iota zeta delta [ret raise].
    destruct (export_if_requested w a {| permissions := perms1; diff := Some d |})
      as [eve [[] | ?]];
      cbn; now rewrite ?app_nil_r, <- ?app_assoc.
Qed.

(** A run without a comparison input. *)
Lemma analyze_alone (w : Env) (a : Args) (ev1 : list event)
      (perms1 : list PermissionRecord) :
  base_stage w a = (ev1, Ok perms1) ->
  compare_requested a = false ->
  analyze w a =
    (ev1 ++ trace (export_if_requested w a {| permissions := perms1; diff := None |}),
     match status (export_if_requested w a {| permissions := perms1; diff := None |}) with
     | Ok _ => Raise (Exit 0)
     | Raise e => Raise e
     end).
Proof.
  intros Hbase Hreq. unfold analyze.
  unfold compare_requested in Hreq. rewrite Hbase.
  cbv beta iota zeta delta [bind ret]. rewrite Hreq.
  destruct (export_if_requested w a {| permissions := perms1; diff := None |})
    as [eve [[] | ?]]; cbn; now rewrite ?app_nil_r.
Qed.

(** Every run of [analyze], by how far it gets. *)
Lemma analyze_run (w : Env) (a : Args) :
  analyze w a =
  match status (base_stage w a) with
  | Raise e => (trace (base_stage w a), Raise e)
  | Ok perms1 =>
      if compare_requested a then
        match status (compare_stage w a perms1) with
        | Raise e =>
            (trace (base_stage w a) ++ trace (compare_stage w a perms1), Raise e)
        | Ok d =>
            (trace (base_stage w a) ++ trace (compare_stage w a perms1)
               ++ trace (finish w a perms1 d),
             status (finish w a perms1 d))
        end
      else
        let report := {| permissions := perms1; diff := None |} in
        (trace (base_stage w a) ++ trace (export_if_requested w a report),
         match status (export_if_requested w a report) with
         | Ok _ => Raise (Exit 0)
         | Raise e => Raise e
         end)
  end.
Proof.
  destruct (base_stage w a) as [ev1 [perms1 | e]] eqn:Hbase; cbn [status trace fst snd].
  - destruct (compare_requested a) eqn:Hreq.
    + destruct (compare_stage w a perms1) as [ev2 [d | e]] eqn:Hcmp;
        cbn [status trace fst snd].
      * exact (analyze_compared w a Hbase Hreq Hcmp).
      * unfold analyze. unfold compare_requested in Hreq.
        rewrite Hbase. cbv beta iota zeta delta [bind]. now rewrite Hreq, Hcmp.
    + exact (analyze_alone w a Hbase Hreq).
  - unfold analyze. now rewrite Hbase.
Qed.

(** *** The end of a run that has its diff *)

Lemma export_json_run (w : Env) (r : Report) (p : path) :
  export_json w r p =
  if can_write w p then
    match console w (Print (MsgJsonSaved p)) with
    | None => ([JsonFile p r; Print (MsgJsonSaved p)], Ok tt)
    | Some _ =>
        match console w (Print (MsgJsonWriteError p SavedLineFailed)) with
        | None => ([JsonFile p r; Print (MsgJsonWriteError p SavedLineFailed)], Ok tt)
        | Some e => ([JsonFile p r], Raise (Error e))
        end
    end
  else
    match console w (Print (MsgJsonWriteError p WriteFailed)) with
    | None => ([Print (MsgJsonWriteError p WriteFailed)], Ok tt)
    | Some e => ([], Raise (Error e))
    end.
Proof.
  unfold export_json. destruct (can_write w p).
  - destruct (console w (Print (MsgJsonSaved p))); [| reflexivity].
    rewrite print_run.
    now destruct (console w (Print (MsgJsonWriteError p SavedLineFailed))).
  - rewrite print_run.
    now destruct (console w (Print (MsgJsonWriteError p WriteFailed))).
Qed.

Lemma finish_run (w : Env) (a : Args) (perms1 : list PermissionRecord)
      (d : DiffResult) :
  let report := {| permissions := perms1; diff := Some d |} in
  finish w a perms1 d =
  match status (print_diff w d) with
  | Raise e => (trace (print_diff w d), Raise e)
  | Ok _ =>
      if policy_fires a d then
        match console w (Print MsgPolicyFail) with
        | Some e => (trace (print_diff w d), Raise (Error e))
        | None =>
            (trace (print_diff w d) ++ Print MsgPolicyFail
               :: trace (export_if_requested w a report),
             match status (export_if_requested w a report) with
             | Ok _ => Raise (Exit 3)
             | Raise e => Raise e
             end)
        end
      else
        (trace (print_diff w d) ++ trace (export_if_requested w a report),
         match status (export_if_requested w a report) with
         | Ok _ => Raise (Exit 0)
         | Raise e => Raise e
         end)
  end.
Proof.
  cbv zeta. unfold finish.
  destruct (print_diff w d) as [evp [[] | ?]]; cbn [status trace fst snd];
    [| reflexivity].
  cbv beta iota zeta delta [bind].
  destruct (policy_fires a d).
  - rewrite print_run. destruct (console w (Print MsgPolicyFail));
      [cbn; now rewrite app_nil_r |].
    destruct (export_if_requested w a {| permissions := perms1; diff := Some d |})
      as [eve [[] | ?]]; cbn; now rewrite ?app_nil_r.
  - cbv beta iota zeta delta [ret raise].
    destruct (export_if_requested w a {| permissions := perms1; diff := Some d |})
      as [eve [[] | ?]]; cbn; now rewrite ?app_nil_r.
Qed.

Lemma nonempty_true {A} (l : list A) : nonempty l = true <-> l <> [].
Proof. destruct l; simpl; split; congruence. Qed.

(** *** [parse_manifest] against the specification *)

(** C1, as stated, fails: with [apkutils2] imported and rejecting the
    bytes of a plain-text manifest that [etree.fromstring] parses,
    [parse_manifest] prints the parse error and returns [None]; the
    plain XML attempt of the specification would have succeeded. *)
Lemma parse_manifest_no_fallback :
  apkutils2 Demo.decoder_env <> None /\
  SpecWords.decoder_attempt Demo.decoder_env (Some Demo.camera_xml) = None /\
  SpecWords.plain_attempt Demo.decoder_env (Some Demo.camera_xml)
    = Some (Demo.manifest_of [Demo.CAMERA]) /\
  SpecWords.spec_parse Demo.decoder_env (Some Demo.camera_xml)
    = Some (Demo.manifest_of [Demo.CAMERA]) /\
  parse_manifest Demo.decoder_env (Some Demo.camera_xml)
    = ([Print (MsgParseError (Some Demo.camera_xml))], Ok None).
Proof.
  split; [discriminate |].
  repeat split; vm_compute; reflexivity.
Qed.

(** C1 (amended): [parse_manifest] returns a tree exactly when its one
    attempt succeeds: the decoder followed by the parse of its output
    when [apkutils2] is imported, the plain XML parse of the bytes only
    when it is not.  Whenever it returns a tree, the loader of the
    specification (decoder first, plain XML as fallback) yields the same
    tree; the two part exactly where the decoder is imported, its
    attempt fails and the bytes are valid plain XML: there
    [parse_manifest] returns no tree at all. *)
Theorem parse_manifest_single_attempt (w : Env) (data : option bytes) :
  (forall root,
     status (parse_manifest w data) = Ok (Some root) <->
     (exists dec xml,
        apkutils2 w = Some dec /\ dec data = Some xml /\
        fromstring w xml = Some root) \/
     (apkutils2 w = None /\
      exists b, data = Some b /\ fromstring w b = Some root)) /\
  (forall root,
     status (parse_manifest w data) = Ok (Some root) ->
     SpecWords.spec_parse w data = Some root) /\
  (forall root,
     SpecWords.spec_parse w data = Some root ->
     status (parse_manifest w data) <> Ok (Some root) ->
     apkutils2 w <> None /\
     SpecWords.decoder_attempt w data = None /\
     SpecWords.plain_attempt w data = Some root /\
     forall r, status (parse_manifest w data) <> Ok (Some r)).
Proof.
  assert (Hst : forall root,
            status (parse_manifest w data) = Ok (Some root) <->
            parse_attempt w data = Some root).
  { intros root. rewrite parse_manifest_run.
    destruct (parse_attempt w data) as [r |]; cbn.
    - split; intros [= ->]; reflexivity.
    - destruct (console w (Print (MsgParseError data))); cbn;
        split; discriminate. }
  split; [| split].
  - intros root. rewrite Hst. unfold parse_attempt.
    destruct (apkutils2 w) as [dec |].
    + split.
      * intros H. left. destruct (dec data) as [xml |] eqn:E; [| discriminate].
        now exists dec, xml.
      * intros [[dec' [xml [[= <-] [Hd Hf]]]] | [H _]]; [| discriminate].
        now rewrite Hd.
    + split.
      * intros H. right. split; [reflexivity |].
        destruct data as [b |]; [| discriminate]. now exists b.
      * intros [[dec' [xml [H _]]] | [_ [b [-> Hf]]]]; [discriminate | exact Hf].
  - intros root H. apply Hst in H. revert H.
    unfold parse_attempt, SpecWords.spec_parse,
      SpecWords.decoder_attempt, SpecWords.plain_attempt.
    destruct (apkutils2 w) as [dec |]; [| trivial].
    destruct (dec data) as [xml |]; [| discriminate].
    now intros ->.
  - intros root Hspec Hno. rewrite Hst in Hno.
    assert (Hcases : parse_attempt w data =
                     if is_some (apkutils2 w) then SpecWords.decoder_attempt w data
                     else SpecWords.plain_attempt w data).
    { unfold parse_attempt, SpecWords.decoder_attempt, SpecWords.plain_attempt.
      now destruct (apkutils2 w). }
    unfold SpecWords.spec_parse in Hspec.
    destruct (apkutils2 w) as [dec |] eqn:Hdec; cbn [is_some] in Hcases.
    + destruct (SpecWords.decoder_attempt w data) as [r |] eqn:Hatt.
      * exfalso. apply Hno. now rewrite Hcases, <- Hspec.
      * repeat split; try assumption; try discriminate.
        intros r. rewrite Hst, Hcases. discriminate.
    + exfalso. apply Hno. rewrite Hcases.
      assert (Hnone : SpecWords.decoder_attempt w data = None).
      { unfold SpecWords.decoder_attempt. now rewrite Hdec. }
      now rewrite Hnone in Hspec.
Qed.

(** Where the code and the specification's loader agree. *)
Lemma parse_attempt_agrees_with_spec (w : Env) (data : option bytes) :
  apkutils2 w = None \/ SpecWords.decoder_attempt w data <> None
  \/ SpecWords.plain_attempt w data = None ->
  parse_attempt w data = SpecWords.spec_parse w data.
Proof.
  unfold parse_attempt, SpecWords.spec_parse,
    SpecWords.decoder_attempt, SpecWords.plain_attempt.
  destruct (apkutils2 w) as [dec |]; [| reflexivity].
  intros [H | [H | H]]; [discriminate | |].
  - destruct (dec data) as [xml |]; [| congruence].
    destruct (fromstring w xml); congruence.
  - rewrite H. destruct (dec data) as [xml |]; [| reflexivity].
    now destruct (fromstring w xml).
Qed.

(** *** The comparison input *)

(** The base path: a manifest that does not parse ends the run with
    exit code 1 (once the parse error line is printed). *)
Lemma base_parse_failure_exits (w : Env) (a : Args) (e1 : list event)
      (data1 : option bytes) :
  load_base w a = (e1, Ok data1) ->
  parse_attempt w data1 = None ->
  console w (Print (MsgParseError data1)) = None ->
  analyze w a =
    ((if no_color a then [SetNoColor] else [])
       ++ e1 ++ [Print (MsgParseError data1)],
     Raise (Exit 1)).
Proof.
  intros Hload Hparse Hline. unfold analyze, base_stage. rewrite Hload. unfold when.
  destruct (no_color a); cbn -[parse_manifest];
    rewrite (parse_manifest_None _ _ Hparse Hline); reflexivity.
Qed.

(** The comparison path has no such check: a comparison manifest that
    does not parse is taken for a manifest without permissions. *)
Lemma compare_parse_failure_continues (w : Env) (a : Args)
      (perms1 : list PermissionRecord) (e2 : list event) (data2 : option bytes) :
  load_compare w a = (e2, Ok data2) ->
  parse_attempt w data2 = None ->
  console w (Print (MsgParseError data2)) = None ->
  exists d,
    compare_stage w a perms1 = (e2 ++ [Print (MsgParseError data2)], Ok d) /\
    diff_permissions perms1 [] = Some d /\
    added d = [] /\ newDangerous d = [] /\
    (forall n, In n (removed d) <-> In n (names perms1)).
Proof.
  intros Hload Hparse Hline.
  destruct (DiffFacts.diff_permissions_facts perms1 [])
    as [d [Hd [Hadd [Hrem [Hnd _]]]]].
  exists d.
  assert (Ha : added d = []).
  { destruct (added d) as [| n l] eqn:E; [reflexivity |].
    destruct (proj1 (Hadd n) (or_introl eq_refl)) as [[] _]. }
  repeat split; try assumption.
  - pose proof (parse_manifest_None _ _ Hparse Hline) as Hrun.
    rewrite (compare_stage_ok w a perms1 Hload (m2 := None) (d := d)).
    + now rewrite Hrun.
    + now rewrite Hrun.
    + exact Hd.
  - destruct (newDangerous d) as [| n l] eqn:E; [reflexivity |].
    destruct (proj1 (Hnd n) (or_introl eq_refl)) as [Hin _].
    rewrite Ha in Hin. destruct Hin.
  - intros Hn. now apply Hrem in Hn.
  - intros Hn. apply Hrem. split; [assumption | intros []].
Qed.

(** C2 at the failing input: base manifest with [CAMERA], comparison
    archive [gone.apk] that does not exist.  The run prints the two
    error messages, then reports [CAMERA] as removed and exits with
    code 0: the diff is taken against an empty comparison set. *)
Example compare_failure_diffs_against_empty :
  analyze Demo.demo_env Demo.missing_compare_apk_args =
  ([Table (lit "Permissions (Base)") [classify_permission Demo.CAMERA];
    Print (MsgApkNotFound (lit "gone.apk"));
    Print (MsgParseError None);
    Print MsgCompareHeader;
    Print (MsgRemoved [Demo.CAMERA])],
   Raise (Exit 0)).
Proof. vm_compute. reflexivity. Qed.

(** *** Runs lost to a line the console does not render

    The lines of [analyze] put permission names, paths and exception
    texts into console markup as they are.  A closing tag in one of them
    makes [console.print] raise, and nothing catches it. *)

(** C6 at the failing input: base manifest without permissions,
    comparison manifest with [CAMERA] and the name [a[/b]], policy flag
    set, output path given.  [newDangerous] is [CAMERA], yet the run
    leaves with [MarkupError] at the line of the added names: no exit
    code 3, and no JSON file has been written. *)
Example policy_exit_lost_on_tagged_name :
  fail_on_new_dangerous Demo.policy_tagged_args = true /\
  diff_permissions []
    (List.map classify_permission
       (extract_permissions (Some (Demo.manifest_of [Demo.CAMERA; Demo.TAGGED]))))
  = Some {| added := [Demo.TAGGED; Demo.CAMERA]; removed := [];
            newDangerous := [Demo.CAMERA] |} /\
  analyze Demo.demo_env Demo.policy_tagged_args =
  ([Table (lit "Permissions (Base)") []; Print MsgCompareHeader],
   Raise (Error MarkupError)).
Proof. repeat split; vm_compute; reflexivity. Qed.


(** C8 at the failing input: the analysis of [camera.xml] goes through,
    the output path [r[/b].json] cannot be written.  The error line
    quotes the path and is not rendered: the run leaves with
    [MarkupError] and no message.  With the path [r.json], which cannot
    be written either, the message is printed and the run ends with
    exit code 0. *)
Example write_failure_lost_on_tagged_path :
  analyze Demo.readonly_env Demo.tagged_output_args =
  ([Table (lit "Permissions (Base)") [classify_permission Demo.CAMERA]],
   Raise (Error MarkupError)) /\
  analyze Demo.readonly_env Demo.plain_output_args =
  ([Table (lit "Permissions (Base)") [classify_permission Demo.CAMERA];
    Print (MsgJsonWriteError (lit "r.json") WriteFailed)],
   Raise (Exit 0)).
Proof. split; vm_compute; reflexivity. Qed.

(** C9 at the failing input: both manifests declare [CAMERA] and the
    name [a[/b]], the filter is [--only normal], the policy flag is
    set.  [CAMERA] is in both manifests and excluded by the filter, the
    diff holds it as added and as newly dangerous; the run leaves with
    [MarkupError] at the line of the added names, without that line and
    without exit code 3. *)
Example filter_excluded_lost_on_tagged_name :
  In Demo.CAMERA (extract_permissions (Some (Demo.manifest_of [Demo.CAMERA; Demo.TAGGED]))) /\
  ~ In (category (classify_permission Demo.CAMERA)) [lit "normal"] /\
  compare_stage Demo.demo_env Demo.filtered_tagged_args [] =
  ([], Ok {| added := [Demo.TAGGED; Demo.CAMERA]; removed := [];
             newDangerous := [Demo.CAMERA] |}) /\
  analyze Demo.demo_env Demo.filtered_tagged_args =
  ([Table (lit "Permissions (Base)") []; Print MsgCompareHeader],
   Raise (Error MarkupError)).
Proof.
  split; [vm_compute; tauto |].
  split; [vm_compute; intros [H | []]; discriminate H |].
  split; vm_compute; reflexivity.
Qed.

(** *** Helpers on the diff lines and on classified lists *)

Lemma print_diff_run (w : Env) (d : DiffResult) :
  console w (Print MsgCompareHeader) = None ->
  (added d <> [] -> console w (Print (MsgAdded (added d))) = None) ->
  (removed d <> [] -> console w (Print (MsgRemoved (removed d))) = None) ->
  (newDangerous d <> [] ->
   console w (Print (MsgNewDangerous (newDangerous d))) = None) ->
  print_diff w d =
  (if nonempty (added d) || nonempty (removed d) then
     Print MsgCompareHeader
       :: (if nonempty (added d) then [Print (MsgAdded (added d))] else [])
       ++ (if nonempty (removed d) then [Print (MsgRemoved (removed d))] else [])
       ++ (if nonempty (newDangerous d)
           then [Print (MsgNewDangerous (newDangerous d))] else [])
   else [],
   Ok tt).
Proof.
  intros Hh Ha Hr Hn. unfold print_diff, when.
  destruct (added d) as [| a1 la]; destruct (removed d) as [| r1 lr];
    destruct (newDangerous d) as [| n1 ln]; cbn [nonempty orb];
    try reflexivity;
    rewrite !print_run, ?Hh, ?(Ha ltac:(discriminate)),
      ?(Hr ltac:(discriminate)), ?(Hn ltac:(discriminate));
    reflexivity.
Qed.

(** A record of a classified list is the classification of its name. *)
Lemma classified_record (ns : list str) (p : PermissionRecord) :
  In p (List.map classify_permission ns) ->
  p = classify_permission (name p) /\ In (name p) ns.
Proof.
  intros H. apply in_map_iff in H. destruct H as [m [<- Hm]].
  now rewrite DiffFacts.classified_name.
Qed.

(** *** Missing input files *)

Lemma read_bytes_missing (w : Env) (p : path) :
  fs w p = Missing -> read_bytes w p = ([], Raise (Error FileNotFoundError)).
Proof. unfold read_bytes. now intros ->. Qed.

(** C10: a base manifest path that does not exist makes [analyze] leave
    with [FileNotFoundError] before anything is printed; a comparison
    manifest path that does not exist does the same right after the
    base stage.  The read of a manifest path stands outside any [try]
    and outside the archive loader, which alone checks that the path
    exists: no message is printed and no [typer.Exit] is raised. *)
Theorem missing_manifest_raises :
  (forall (w : Env) (a : Args) (p : path),
     apk a = None -> manifest a = Some p -> fs w p = Missing ->
     analyze w a =
       ((if no_color a then [SetNoColor] else []),
        Raise (Error FileNotFoundError))) /\
  (forall (w : Env) (a : Args) (p : path) (ev1 : list event)
          (perms1 : list PermissionRecord),
     base_stage w a = (ev1, Ok perms1) ->
     compare_apk a = None -> compare_manifest a = Some p -> fs w p = Missing ->
     analyze w a = (ev1, Raise (Error FileNotFoundError))).
Proof.
  split.
  - intros w a p Hapk Hman Hfs.
    unfold analyze, base_stage, load_base, when.
    rewrite Hapk, Hman, (read_bytes_missing _ _ Hfs).
    now destruct (no_color a).
  - intros w a p ev1 perms1 Hbase Hcapk Hcman Hfs.
    rewrite analyze_run, Hbase. cbn [status trace fst snd].
    unfold compare_requested, compare_stage, load_compare.
    rewrite Hcapk, Hcman, (read_bytes_missing _ _ Hfs).
    cbn. now rewrite app_nil_r.
Qed.

(** [missing_manifest_raises] on a missing base manifest and on a
    missing comparison manifest. *)
Lemma missing_manifest_raises_witness :
  analyze Demo.demo_env Demo.missing_manifest_args
    = ([], Raise (Error FileNotFoundError)) /\
  analyze Demo.demo_env Demo.missing_compare_manifest_args
    = ([Table (lit "Permissions (Base)") [classify_permission Demo.CAMERA]],
       Raise (Error FileNotFoundError)).
Proof.
  destruct missing_manifest_raises as [Hbase Hcmp].
  split.
  - apply (Hbase Demo.demo_env Demo.missing_manifest_args (lit "gone.xml"));
      reflexivity.
  - apply (Hcmp Demo.demo_env Demo.missing_compare_manifest_args (lit "gone.xml")
                 [Table (lit "Permissions (Base)") [classify_permission Demo.CAMERA]]
                 [classify_permission Demo.CAMERA]).
    + vm_compute. reflexivity.
    + reflexivity.
    + reflexivity.
    + reflexivity.
Defined.

End CliFacts.

(** ** The scenarios of the specification, run on the model *)

Module Scenarios.
Import PyStr Permission Cli Demo.

Example internet_is_normal :
  classify_permission INTERNET =
  {| name := INTERNET; category := lit "normal";
     group := Some (lit "NETWORK"); sensitive := false |}.
Proof. vm_compute. reflexivity. Qed.

Example camera_and_custom :
  List.map classify_permission
    (extract_permissions (Some (manifest_of [CAMERA; lit "com.example.CUSTOM_PERM"]))) =
  [ {| name := CAMERA; category := lit "dangerous";
       group := Some (lit "CAMERA"); sensitive := true |};
    {| name := lit "com.example.CUSTOM_PERM"; category := lit "unknown";
       group := None; sensitive := false |} ].
Proof. vm_compute. reflexivity. Qed.

Example camera_added :
  diff_permissions [classify_permission INTERNET]
    (List.map classify_permission
       (extract_permissions (Some (manifest_of [INTERNET; CAMERA])))) =
  Some {| added := [CAMERA]; removed := []; newDangerous := [CAMERA] |}.
Proof. vm_compute. reflexivity. Qed.

Example names_trimmed_sorted_deduplicated :
  extract_permissions
    (Some (manifest_of [lit "  b "; lit "a"; lit "b"; lit "a  "])) =
  [lit "a"; lit "b"].
Proof. vm_compute. reflexivity. Qed.

Example lookup_is_case_sensitive :
  category (classify_permission (lit "android.permission.camera")) = lit "unknown".
Proof. vm_compute. reflexivity. Qed.

End Scenarios.

(** * Further properties of the code *)

(** ** More on [strip] and the extractor *)

Module ExtractMore.
Import PyStr PyStrFacts Permission Notions Notions2.

Lemma lstrip_clean (s : str) :
  (forall c t, s = c :: t -> isspace c = false) -> lstrip s = s.
Proof.
  destruct s as [| c t]; simpl; [reflexivity |].
  intros H. now rewrite (H c t eq_refl).
Qed.

Lemma strip_clean (s : str) :
  (forall c t, s = c :: t -> isspace c = false) ->
  (forall c t, s = t ++ [c] -> isspace c = false) ->
  strip s = s.
Proof.
  intros Hh Hl. unfold strip, rstrip. rewrite (lstrip_clean Hh).
  rewrite lstrip_clean; [apply rev_involutive |].
  intros c t Hr. apply (Hl c (rev t)).
  rewrite <- (rev_involutive s), Hr. reflexivity.
Qed.

Lemma strip_idempotent (s : str) : strip (strip s) = strip s.
Proof.
  destruct (strip_split s) as [pre [post [_ [_ [_ [Hh Hl]]]]]].
  now apply strip_clean.
Qed.

Lemma lstrip_all_space (s : str) : forallb isspace s = true -> lstrip s = [].
Proof.
  induction s as [| c s IH]; simpl; [reflexivity |].
  intros H. apply andb_true_iff in H. destruct H as [Hc Hs].
  rewrite Hc. now apply IH.
Qed.

Lemma strip_nil_iff (s : str) : strip s = [] <-> forallb isspace s = true.
Proof.
  split.
  - intros E. destruct (strip_split s) as [pre [post [Hs [Hpre [Hpost _]]]]].
    rewrite E in Hs. simpl in Hs. rewrite Hs, forallb_app, Hpre, Hpost.
    reflexivity.
  - intros H. unfold strip, rstrip. now rewrite (lstrip_all_space s H).
Qed.

Lemma extract_permissions_in_collected (root : Xml.element) (n : str) :
  In n (extract_permissions (Some root)) <-> In n (collected root).
Proof. unfold extract_permissions. now rewrite sorted_In, pyset_In. Qed.

(** What the extractor collects is decided by the declarations alone. *)
Lemma collected_by_declaration (root : Xml.element) (n : str) :
  In n (collected root) <->
  exists t v, In (t, Some v) (declarations root) /\ In t PERMISSION_TAGS /\
              v <> [] /\ n = strip v.
Proof.
  rewrite ExtractFacts.collected_In. unfold declarations, declaration. split.
  - intros [el [v [Hc [Ht [Hg [Hv Hn]]]]]]. exists (Xml.tag el), v.
    repeat split; try assumption.
    apply in_map_iff. exists el. now rewrite Hg.
  - intros [t [v [Hd [Ht [Hv Hn]]]]].
    apply in_map_iff in Hd. destruct Hd as [el [[= <- Hg] Hc]].
    exists el, v. tauto.
Qed.

(** X1: the result of [extract_permissions] depends only on which
    (tag, name value) pairs occur among the children of the root: their
    order and repetition, their other attributes and their own children,
    and the tag and attributes of the root make no difference. *)
Theorem extract_depends_on_declarations (r1 r2 : Xml.element) :
  (forall x, In x (declarations r1) <-> In x (declarations r2)) ->
  extract_permissions (Some r1) = extract_permissions (Some r2).
Proof.
  intros Hsame. unfold extract_permissions. apply ascending_unique.
  - apply sorted_ascending, pyset_NoDup.
  - apply sorted_ascending, pyset_NoDup.
  - intros n. rewrite !sorted_In, !pyset_In, !collected_by_declaration.
    split; intros [t [v [Hd H]]]; exists t, v; (split; [now apply Hsame | exact H]).
Qed.

(** [extract_depends_on_declarations] on a manifest and a rearranged
    copy of it: another root, the two permissions swapped, one of them
    repeated, one with a child element of its own. *)
Lemma extract_depends_on_declarations_witness :
  extract_permissions
    (Some (Xml.Element (lit "manifest") []
             [Demo.uses_permission Demo.INTERNET; Demo.uses_permission Demo.CAMERA]))
  = extract_permissions
      (Some (Xml.Element (lit "root") [(lit "package", lit "com.example")]
               [Demo.uses_permission Demo.CAMERA;
                Xml.Element (lit "uses-permission")
                  [(ANDROID_NAME, Demo.INTERNET)]
                  [Demo.uses_permission (lit "android.permission.READ_SMS")];
                Demo.uses_permission Demo.CAMERA])).
Proof.
  apply extract_depends_on_declarations.
  intros x. vm_compute. tauto.
Defined.

(** X2: every name returned by [extract_permissions] is in trimmed form:
    trimming it again changes nothing, it neither starts nor ends with a
    whitespace character. *)
Theorem extracted_names_are_trimmed (t : option Xml.element) (n : str) :
  In n (extract_permissions t) ->
  strip n = n /\
  (forall c s, n = c :: s -> isspace c = false) /\
  (forall c s, n = s ++ [c] -> isspace c = false).
Proof.
  destruct t as [root |]; [| intros []].
  intros Hin. apply extract_permissions_in_collected in Hin.
  apply ExtractFacts.collected_In in Hin.
  destruct Hin as [el [v [_ [_ [_ [_ ->]]]]]].
  destruct (strip_split v) as [pre [post [_ [_ [_ [Hh Hl]]]]]].
  split; [apply strip_idempotent | split; assumption].
Qed.

Lemma extracted_names_are_trimmed_witness :
  strip Demo.CAMERA = Demo.CAMERA.
Proof.
  apply (extracted_names_are_trimmed
           (Some (Demo.manifest_of [lit "  android.permission.CAMERA "]))).
  vm_compute. tauto.
Defined.

(** X3: the empty string is among the extracted names exactly when some
    child tagged [uses-permission] or [uses-permission-sdk-23] has a
    name value that is not empty and consists of whitespace only: the
    guard is applied before the trimming. *)
Theorem extracted_empty_name_iff (root : Xml.element) :
  In [] (extract_permissions (Some root)) <->
  exists el v,
    In el (Xml.children root) /\ In (Xml.tag el) PERMISSION_TAGS /\
    Xml.get el ANDROID_NAME = Some v /\ v <> [] /\ forallb isspace v = true.
Proof.
  rewrite extract_permissions_in_collected, ExtractFacts.collected_In.
  split; intros [el [v [Hc [Ht [Hg [Hv H]]]]]]; exists el, v;
    repeat split; try assumption.
  - apply strip_nil_iff. now symmetry.
  - symmetry. now apply strip_nil_iff.
Qed.

End ExtractMore.

(** ** More on the differ *)

Module DiffMore.
Import PyStr PyStrFacts PyDictFacts Permission Notions Notions2.

Lemma get_set_same {V} (d : PyDict.dict V) (k : str) (v : V) :
  PyDict.get (PyDict.set d k v) k = Some v.
Proof.
  induction d as [| [k' v'] d IH]; simpl.
  - now rewrite eqb_refl.
  - destruct (eqb k' k) eqn:E; simpl; rewrite E; [reflexivity | exact IH].
Qed.

Lemma get_set_other {V} (d : PyDict.dict V) (k k' : str) (v : V) :
  k <> k' -> PyDict.get (PyDict.set d k v) k' = PyDict.get d k'.
Proof.
  intros Hne. induction d as [| [k0 v0] d IH]; simpl.
  - apply eqb_neq in Hne. now rewrite Hne.
  - destruct (eqb k0 k) eqn:E; simpl.
    + apply eqb_eq in E. subst k0.
      apply eqb_neq in Hne. now rewrite Hne.
    + destruct (eqb k0 k'); [reflexivity | exact IH].
Qed.

Lemma fold_get_other {A} (key : A -> str) (ps : list A) (d : PyDict.dict A)
      (k : str) :
  ~ In k (List.map key ps) ->
  PyDict.get (fold_left (fun d p => PyDict.set d (key p) p) ps d) k
  = PyDict.get d k.
Proof.
  revert d. induction ps as [| p ps IH]; intros d Hnin; simpl; [reflexivity |].
  rewrite IH by (intros H; apply Hnin; now right).
  apply get_set_other. intros E. apply Hnin. now left.
Qed.

(** In [{key(p): p for p in ps}] the last element with a key is the one
    bound to it. *)
Lemma comprehension_last {A} (key : A -> str) (l1 l2 : list A) (p : A) :
  ~ In (key p) (List.map key l2) ->
  PyDict.get (PyDict.comprehension key (l1 ++ p :: l2)) (key p) = Some p.
Proof.
  intros Hnin. unfold PyDict.comprehension.
  rewrite fold_left_app. simpl.
  rewrite fold_get_other by assumption. apply get_set_same.
Qed.

(** The three lists of the result, as list expressions. *)
Lemma diff_permissions_eq (old new : list PermissionRecord) :
  let old_names := PyDict.comprehension name old in
  let new_names := PyDict.comprehension name new in
  let add := List.filter (fun n => negb (PyDict.contains old_names n))
                         (PyDict.keys new_names) in
  diff_permissions old new =
  Some {| added := add;
          removed := List.filter (fun n => negb (PyDict.contains new_names n))
                                 (PyDict.keys old_names);
          newDangerous := List.filter (is_dangerous_in new_names) add |}.
Proof.
  cbv zeta. unfold diff_permissions.
  rewrite DiffFacts.dangerous_of_bound; [reflexivity |].
  intros n Hn. apply filter_In in Hn. tauto.
Qed.

(** X4: exchanging the two arguments of [diff_permissions] exchanges
    [added] and [removed], as the same lists in the same order. *)
Theorem diff_permissions_swap (old new : list PermissionRecord) :
  exists d d',
    diff_permissions old new = Some d /\
    diff_permissions new old = Some d' /\
    added d = removed d' /\ removed d = added d'.
Proof.
  do 2 eexists. rewrite !diff_permissions_eq. repeat split.
Qed.

(** X5: the result of [diff_permissions] turns the old name set into
    the new one and back: a name is in [new] exactly when it is in
    [old] and not in [removed], or in [added]; a name is in [old]
    exactly when it is in [new] and not in [added], or in [removed]. *)
Theorem diff_permissions_patch (old new : list PermissionRecord) :
  exists d,
    diff_permissions old new = Some d /\
    (forall n, In n (names new) <->
               (In n (names old) /\ ~ In n (removed d)) \/ In n (added d)) /\
    (forall n, In n (names old) <->
               (In n (names new) /\ ~ In n (added d)) \/ In n (removed d)).
Proof.
  destruct (DiffFacts.diff_permissions_facts old new)
    as [d [Hd [Hadd [Hrem _]]]].
  exists d. split; [exact Hd |].
  split; intros n; rewrite Hadd, Hrem;
    destruct (in_dec (list_eq_dec N.eq_dec) n (names old));
    destruct (in_dec (list_eq_dec N.eq_dec) n (names new)); tauto.
Qed.

(** X6: whatever the inputs, also with repeated names, no name occurs
    twice in [added], in [removed] or in [newDangerous]. *)
Theorem diff_permissions_NoDup (old new : list PermissionRecord) :
  exists d,
    diff_permissions old new = Some d /\
    NoDup (added d) /\ NoDup (removed d) /\ NoDup (newDangerous d).
Proof.
  eexists. rewrite diff_permissions_eq. split; [reflexivity |].
  cbn [added removed newDangerous].
  repeat split; repeat apply NoDup_filter; apply comprehension_keys_NoDup.
Qed.

(** X7: the diff is empty ([added] and [removed] both empty) exactly
    when the two lists have the same names; [newDangerous] is then empty
    too.  In particular the diff of a list with itself is empty. *)
Theorem diff_permissions_empty_iff (old new : list PermissionRecord) :
  exists d,
    diff_permissions old new = Some d /\
    ((added d = [] /\ removed d = []) <->
     (forall n, In n (names old) <-> In n (names new))) /\
    (added d = [] -> newDangerous d = []).
Proof.
  destruct (DiffFacts.diff_permissions_facts old new)
    as [d [Hd [Hadd [Hrem [Hnd _]]]]].
  exists d. split; [exact Hd |]. split; [split |].
  - intros [Ha Hr] n.
    destruct (in_dec (list_eq_dec N.eq_dec) n (names old)) as [Ho | Ho];
      destruct (in_dec (list_eq_dec N.eq_dec) n (names new)) as [Hn | Hn];
      try tauto; exfalso.
    + assert (H : In n (removed d)) by (apply Hrem; tauto).
      rewrite Hr in H. destruct H.
    + assert (H : In n (added d)) by (apply Hadd; tauto).
      rewrite Ha in H. destruct H.
  - intros Hsame. split.
    + destruct (added d) as [| n l] eqn:E; [reflexivity |].
      destruct (proj1 (Hadd n) (or_introl eq_refl)) as [Hn Ho].
      apply Hsame in Hn. contradiction.
    + destruct (removed d) as [| n l] eqn:E; [reflexivity |].
      destruct (proj1 (Hrem n) (or_introl eq_refl)) as [Ho Hn].
      apply Hsame in Ho. contradiction.
  - intros Ha. destruct (newDangerous d) as [| n l] eqn:E; [reflexivity |].
    destruct (proj1 (Hnd n) (or_introl eq_refl)) as [Hin _].
    rewrite Ha in Hin. destruct Hin.
Qed.

(** X8: when a name occurs several times in [new], its last record
    decides: a name new to [old] whose last record in [new] is [p] is in
    [newDangerous] exactly when the category of [p] is [dangerous]. *)
Theorem diff_permissions_last_record_decides
        (old l1 l2 : list PermissionRecord) (p : PermissionRecord) :
  ~ In (name p) (names l2) ->
  ~ In (name p) (names old) ->
  exists d,
    diff_permissions old (l1 ++ p :: l2) = Some d /\
    In (name p) (added d) /\
    (In (name p) (newDangerous d) <-> category p = lit "dangerous").
Proof.
  intros Hlast Hfresh.
  destruct (DiffFacts.diff_permissions_facts old (l1 ++ p :: l2))
    as [d [Hd [Hadd [_ [Hnd _]]]]].
  exists d. split; [exact Hd |].
  assert (Ha : In (name p) (added d)).
  { apply Hadd. split; [| assumption].
    unfold names. rewrite map_app, in_app_iff. right. now left. }
  split; [exact Ha |].
  rewrite Hnd. unfold is_dangerous_in.
  rewrite (comprehension_last name l1 l2 p Hlast), eqb_eq. tauto.
Qed.

(** [diff_permissions_last_record_decides] on a list that names
    [CAMERA] twice, first with a made-up category, last as classified. *)
Lemma diff_permissions_last_record_decides_witness :
  exists d,
    diff_permissions []
      [ {| name := Demo.CAMERA; category := lit "normal";
           group := None; sensitive := false |};
        classify_permission Demo.CAMERA ] = Some d /\
    In Demo.CAMERA (newDangerous d).
Proof.
  destruct (diff_permissions_last_record_decides []
              [ {| name := Demo.CAMERA; category := lit "normal";
                   group := None; sensitive := false |} ]
              [] (classify_permission Demo.CAMERA))
    as [d [Hd [_ Hiff]]].
  - intros [].
  - intros [].
  - exists d. split; [exact Hd |]. apply Hiff. reflexivity.
Defined.

(** X9: for a comparison list made by [classify_permission], the names
    in [newDangerous] are exactly the names of the list that are not
    names of [old] and that the catalog binds to category [dangerous];
    a name the catalog does not hold, or holds under [signature] or
    [normal], is never in [newDangerous]. *)
Theorem diff_new_dangerous_by_catalog (old : list PermissionRecord)
        (ns : list str) :
  exists d,
    diff_permissions old (List.map classify_permission ns) = Some d /\
    (forall n, In n (newDangerous d) <->
       In n ns /\ ~ In n (names old) /\
       exists g, PyDict.get PERMISSION_CATEGORIES n = Some (lit "dangerous", g)).
Proof.
  set (new := List.map classify_permission ns).
  destruct (DiffFacts.diff_permissions_facts old new)
    as [d [Hd [Hadd [_ [Hnd _]]]]].
  exists d. split; [exact Hd |].
  assert (Hcat : forall n,
            category (classify_permission n) = lit "dangerous" <->
            exists g, PyDict.get PERMISSION_CATEGORIES n = Some (lit "dangerous", g)).
  { intros n. unfold classify_permission.
    destruct (PyDict.get PERMISSION_CATEGORIES n) as [[c g] |]; cbn.
    - split; [intros ->; now exists g | intros [g' [= -> _]]; reflexivity].
    - split; [intros H; vm_compute in H; discriminate | intros [g' H]; discriminate]. }
  intros n. rewrite Hnd, Hadd. unfold new at 1.
  rewrite DiffFacts.classified_names, <- Hcat.
  assert (Hget : In n ns ->
            PyDict.get (PyDict.comprehension name new) n = Some (classify_permission n)).
  { intros Hin.
    destruct (PyDict.get (PyDict.comprehension name new) n) as [p |] eqn:E.
    - destruct (comprehension_get name new n E) as [Hp Hname].
      apply in_map_iff in Hp. destruct Hp as [m [<- _]].
      rewrite DiffFacts.classified_name in Hname. now subst m.
    - apply get_None in E. exfalso. apply E, comprehension_keys_In.
      fold (names new). unfold new. now rewrite DiffFacts.classified_names. }
  unfold is_dangerous_in. split.
  - intros [[Hin Hnew] Hdang]. rewrite (Hget Hin) in Hdang.
    apply eqb_eq in Hdang. tauto.
  - intros [Hin [Hnew Hdang]]. rewrite (Hget Hin), eqb_eq. tauto.
Qed.

End DiffMore.

(** ** More on the loader and the orchestrator *)

Module CliMore.
Import PyStr PyStrFacts Permission Cli Notions Notions2 CliFacts.

(** *** How the pieces end *)

Lemma trace_bind {A B} (m : M A) (f : A -> M B) :
  trace (bind m f) =
  trace m ++ match status m with Ok x => trace (f x) | Raise _ => [] end.
Proof.
  rewrite bind_run. destruct (status m); cbn; [reflexivity | now rewrite app_nil_r].
Qed.

Lemma print_then_ret {A} (w : Env) (m : message) (x : A) :
  (print w m ;; ret x) =
  match console w (Print m) with
  | None => ([Print m], Ok x)
  | Some e => ([], Raise (Error e))
  end.
Proof. rewrite print_run. now destruct (console w (Print m)). Qed.

Lemma load_apk_run (w : Env) (p : path) :
  load_manifest_from_apk w p =
  let failed :=
    match console w (load_failure_line w p) with
    | None => ([load_failure_line w p], Ok None)
    | Some e => ([], Raise (Error e))
    end in
  match fs w p with
  | BadPath e => ([], Raise (Error e))
  | File b =>
      match unzip_manifest w b with
      | Some data => ([], Ok (Some data))
      | None => failed
      end
  | _ => failed
  end.
Proof.
  unfold load_manifest_from_apk, exists_, zip_read, load_failure_line, print.
  destruct (fs w p) as [| e | e | | b]; cbv zeta; cbn [negb];
    [| | | | destruct (unzip_manifest w b)];
    repeat match goal with
           | |- context [console w ?ev] => destruct (console w ev)
           end;
    reflexivity.
Qed.

Lemma read_input_run (w : Env) (p : path) :
  (data <- read_bytes w p ;; ret (Some data)) =
  match fs w p with
  | File b => ([], Ok (Some b))
  | Missing => ([], Raise (Error FileNotFoundError))
  | Unreachable e | BadPath e => ([], Raise (Error e))
  | Unreadable => ([], Raise (Error OSError))
  end.
Proof. unfold read_bytes. now destruct (fs w p). Qed.

Lemma prints_only_nil : prints_only [].
Proof. intros e []. Qed.

Lemma prints_only_one (m : message) : prints_only [Print m].
Proof. intros e [<- | []]. now exists m. Qed.

Lemma prints_only_app (l1 l2 : list event) :
  prints_only l1 -> prints_only l2 -> prints_only (l1 ++ l2).
Proof.
  intros H1 H2 e He. apply in_app_iff in He. destruct He; auto.
Qed.

Create HintDb prints.
#[local] Hint Resolve prints_only_nil prints_only_one prints_only_app : prints.

Lemma load_apk_ends (w : Env) (p : path) :
  prints_only (trace (load_manifest_from_apk w p)) /\
  forall r, status (load_manifest_from_apk w p) = Raise r ->
    exists e, r = Error e /\
      ((exists ev, console w ev = Some e) \/ fs w p = BadPath e).
Proof.
  rewrite load_apk_run. cbv zeta. unfold load_failure_line.
  destruct (fs w p) as [| e | e | | b] eqn:Hfs;
    [| | | | destruct (unzip_manifest w b)];
    try match goal with
        | |- context [console w ?ev] => destruct (console w ev) as [x |] eqn:Hc
        end;
    cbn [trace status fst snd]; (split; [auto with prints |]);
    intros r [= <-]; eexists; (split; [reflexivity |]); eauto.
Qed.

Lemma read_input_ends (w : Env) (p : path) :
  trace (data <- read_bytes w p ;; ret (Some data)) = [] /\
  forall r, status (data <- read_bytes w p ;; ret (Some data)) = Raise r ->
    exists e, r = Error e /\ read_error (fs w p) = Some e.
Proof.
  rewrite read_input_run.
  destruct (fs w p) as [| e | e | | b]; cbn; (split; [reflexivity |]);
    intros r [= <-]; eexists; split; reflexivity.
Qed.

Lemma load_base_ends (w : Env) (a : Args) :
  prints_only (trace (load_base w a)) /\
  forall r, status (load_base w a) = Raise r ->
    (r = Exit 1 /\ apk a = None /\ manifest a = None /\
     console w (Print MsgInputMissing) = None) \/
    (exists e, r = Error e /\ accounted w a e).
Proof.
  unfold load_base, accounted.
  destruct (apk a) as [p |]; [| destruct (manifest a) as [p |]].
  - destruct (load_apk_ends w p) as [Hp Hr]. split; [exact Hp |].
    intros r H. right. destruct (Hr r H) as [e [-> [Hc | Hb]]]; exists e;
      (split; [reflexivity |]); [now left |].
    right. right. exists p. auto.
  - destruct (read_input_ends w p) as [Ht Hr]. rewrite Ht.
    split; [auto with prints |].
    intros r H. right. destruct (Hr r H) as [e [-> He]]. exists e.
    split; [reflexivity |]. right. left. exists p. auto.
  - rewrite print_run.
    destruct (console w (Print MsgInputMissing)) as [x |] eqn:Hc;
      cbn; (split; [auto with prints |]); intros r [= <-].
    + right. exists x. split; [reflexivity |]. left. eauto.
    + left. auto.
Qed.

Lemma load_compare_ends (w : Env) (a : Args) :
  prints_only (trace (load_compare w a)) /\
  forall r, status (load_compare w a) = Raise r ->
    exists e, r = Error e /\ accounted w a e.
Proof.
  unfold load_compare, accounted.
  destruct (compare_apk a) as [p |]; [| destruct (compare_manifest a) as [p |]].
  - destruct (load_apk_ends w p) as [Hp Hr]. split; [exact Hp |].
    intros r H. destruct (Hr r H) as [e [-> [Hc | Hb]]]; exists e;
      (split; [reflexivity |]); [now left |].
    right. right. exists p. auto.
  - destruct (read_input_ends w p) as [Ht Hr]. rewrite Ht.
    split; [auto with prints |].
    intros r H. destruct (Hr r H) as [e [-> He]]. exists e.
    split; [reflexivity |]. right. left. exists p. auto.
  - cbn. split; [auto with prints | discriminate].
Qed.

Lemma parse_manifest_ends (w : Env) (data : option bytes) :
  prints_only (trace (parse_manifest w data)) /\
  forall r, status (parse_manifest w data) = Raise r ->
    exists e, r = Error e /\ console w (Print (MsgParseError data)) = Some e.
Proof.
  rewrite parse_manifest_run. destruct (parse_attempt w data) as [root |]; cbn.
  - split; [auto with prints | discriminate].
  - destruct (console w (Print (MsgParseError data))) as [x |] eqn:Hc; cbn;
      (split; [auto with prints |]); intros r [= <-]. now exists x.
Qed.

(** The base stage, by how it ends. *)
Lemma base_stage_run (w : Env) (a : Args) :
  base_stage w a =
  let nc := if no_color a then [SetNoColor] else [] in
  match status (load_base w a) with
  | Raise e => (nc ++ trace (load_base w a), Raise e)
  | Ok data1 =>
      match parse_attempt w data1 with
      | None =>
          match console w (Print (MsgParseError data1)) with
          | None =>
              (nc ++ trace (load_base w a) ++ [Print (MsgParseError data1)],
               Raise (Exit 1))
          | Some e => (nc ++ trace (load_base w a), Raise (Error e))
          end
      | Some root =>
          match console w (Table (lit "Permissions (Base)") (base_set a root)) with
          | None =>
              (nc ++ trace (load_base w a)
                  ++ [Table (lit "Permissions (Base)") (base_set a root)],
               Ok (base_set a root))
          | Some e => (nc ++ trace (load_base w a), Raise (Error e))
          end
      end
  end.
Proof.
  cbv zeta. destruct (load_base w a) as [e1 [data1 | e]] eqn:Hload;
    cbn [status trace fst snd].
  - destruct (parse_attempt w data1) as [root |] eqn:Hparse.
    + destruct (console w (Table (lit "Permissions (Base)") (base_set a root)))
        as [x |] eqn:Hc.
      * unfold base_stage. rewrite Hload. unfold when.
        destruct (no_color a); cbn -[extract_permissions classify_permission lit print_table];
          rewrite (parse_manifest_Some _ _ Hparse);
          cbn -[extract_permissions classify_permission lit print_table];
          fold (base_set a root); rewrite print_table_run, Hc; cbn;
          now rewrite ?app_nil_r.
      * exact (base_stage_ok w a Hload Hparse Hc).
    + unfold base_stage. rewrite Hload. unfold when.
      destruct (no_color a); cbn -[parse_manifest];
        rewrite (parse_manifest_run w data1), Hparse;
        destruct (console w (Print (MsgParseError data1)));
        cbn; now rewrite ?app_nil_r.
  - unfold base_stage. rewrite Hload. unfold when. now destruct (no_color a).
Qed.

(** The comparison stage, by how it ends. *)
Lemma compare_stage_run (w : Env) (a : Args) (perms1 : list PermissionRecord) :
  compare_stage w a perms1 =
  match status (load_compare w a) with
  | Raise e => (trace (load_compare w a), Raise e)
  | Ok data2 =>
      let ev := trace (load_compare w a) ++ trace (parse_manifest w data2) in
      match status (parse_manifest w data2) with
      | Raise e => (ev, Raise e)
      | Ok _ =>
          match diff_permissions perms1 (compare_set (parse_attempt w data2)) with
          | Some d => (ev, Ok d)
          | None => (ev, Raise (Error KeyError))
          end
      end
  end.
Proof.
  destruct (load_compare w a) as [e2 [data2 | e]] eqn:Hload;
    cbn [status trace fst snd]; cbv zeta.
  - destruct (status (parse_manifest w data2)) as [m2 | e] eqn:Hparse.
    + pose proof (parse_manifest_returns _ _ Hparse) as ->.
      destruct (diff_permissions perms1 (compare_set (parse_attempt w data2)))
        as [d |] eqn:Hd.
      * exact (compare_stage_ok w a perms1 Hload Hparse Hd).
      * destruct (DiffFacts.diff_permissions_facts perms1
                    (compare_set (parse_attempt w data2))) as [d [Hd' _]].
        congruence.
    + unfold compare_stage. rewrite Hload, bind_Ok, bind_run, Hparse. reflexivity.
  - unfold compare_stage. now rewrite Hload.
Qed.

Lemma base_stage_status (w : Env) (a : Args) :
  status (base_stage w a) =
  match status (load_base w a) with
  | Raise e => Raise e
  | Ok data1 =>
      match parse_attempt w data1 with
      | None =>
          match console w (Print (MsgParseError data1)) with
          | None => Raise (Exit 1)
          | Some e => Raise (Error e)
          end
      | Some root =>
          match console w (Table (lit "Permissions (Base)") (base_set a root)) with
          | None => Ok (base_set a root)
          | Some e => Raise (Error e)
          end
      end
  end.
Proof.
  rewrite base_stage_run. cbv zeta.
  destruct (status (load_base w a)) as [data1 | e]; [| reflexivity].
  destruct (parse_attempt w data1) as [root |].
  - now destruct (console w (Table (lit "Permissions (Base)") (base_set a root))).
  - now destruct (console w (Print (MsgParseError data1))).
Qed.

(** A comparison stage that goes through has loaded its data, rendered
    the lines of the loader and of the parser, and diffed against the
    set of the one parse attempt. *)
Lemma compare_stage_Ok_inv (w : Env) (a : Args) (perms1 : list PermissionRecord)
      (d : DiffResult) :
  status (compare_stage w a perms1) = Ok d ->
  exists data2,
    status (load_compare w a) = Ok data2 /\
    status (parse_manifest w data2) = Ok (parse_attempt w data2) /\
    diff_permissions perms1 (compare_set (parse_attempt w data2)) = Some d.
Proof.
  rewrite compare_stage_run.
  destruct (status (load_compare w a)) as [data2 | e]; [| discriminate].
  cbv zeta.
  destruct (status (parse_manifest w data2)) as [m2 | e] eqn:Hparse; [| discriminate].
  pose proof (parse_manifest_returns _ _ Hparse) as ->.
  destruct (diff_permissions perms1 (compare_set (parse_attempt w data2)))
    as [d' |] eqn:Hd; [| discriminate].
  cbn. intros [= <-]. now exists data2.
Qed.

Lemma base_stage_raise (w : Env) (a : Args) (r : raised) :
  status (base_stage w a) = Raise r ->
  r = Exit 1 \/ exists e, r = Error e /\ accounted w a e.
Proof.
  rewrite base_stage_status.
  destruct (load_base_ends w a) as [_ Hr].
  destruct (status (load_base w a)) as [data1 | r'].
  - destruct (parse_attempt w data1) as [root |].
    + destruct (console w (Table (lit "Permissions (Base)") (base_set a root)))
        as [x |] eqn:Hc; [| discriminate].
      intros [= <-]. right. exists x. split; [reflexivity |]. left. eauto.
    + destruct (console w (Print (MsgParseError data1))) as [x |] eqn:Hc;
        intros [= <-]; [| now left].
      right. exists x. split; [reflexivity |]. left. eauto.
  - intros [= <-]. destruct (Hr r' eq_refl) as [[-> _] | H]; auto.
Qed.

Lemma compare_stage_raise (w : Env) (a : Args) (perms1 : list PermissionRecord)
      (r : raised) :
  status (compare_stage w a perms1) = Raise r ->
  exists e, r = Error e /\ accounted w a e.
Proof.
  rewrite compare_stage_run.
  destruct (load_compare_ends w a) as [_ Hr].
  destruct (status (load_compare w a)) as [data2 | r'].
  - cbv zeta. destruct (parse_manifest_ends w data2) as [_ Hp].
    destruct (status (parse_manifest w data2)) as [m2 | r''].
    + destruct (DiffFacts.diff_permissions_facts perms1
                  (compare_set (parse_attempt w data2))) as [d [-> _]].
      discriminate.
    + intros [= <-]. destruct (Hp r'' eq_refl) as [e [-> Hc]].
      exists e. split; [reflexivity |]. left. eauto.
  - intros [= <-]. exact (Hr r' eq_refl).
Qed.

(** *** The lines of the diff and of the export *)

(** Lines printed one after the other. *)
Lemma print_cons_run (w : Env) (m : message) (k : M unit) (ms : list message) :
  k = (List.map Print (rendered w ms),
       match first_failure w ms with
       | None => Ok tt
       | Some e => Raise (Error e)
       end) ->
  (print w m ;; k) =
  (List.map Print (rendered w (m :: ms)),
   match first_failure w (m :: ms) with
   | None => Ok tt
   | Some e => Raise (Error e)
   end).
Proof.
  intros ->. rewrite print_run. cbn [rendered first_failure].
  destruct (console w (Print m)); [reflexivity |].
  rewrite bind_Ok. reflexivity.
Qed.

Lemma print_last_run (w : Env) (m : message) :
  print w m =
  (List.map Print (rendered w [m]),
   match first_failure w [m] with
   | None => Ok tt
   | Some e => Raise (Error e)
   end).
Proof.
  rewrite print_run. cbn. now destruct (console w (Print m)).
Qed.

Lemma ret_bind {A} (k : M A) : (ret tt ;; k) = k.
Proof. unfold ret, bind. now destruct k. Qed.

Lemma bind_ret (k : M unit) : (k ;; ret tt) = k.
Proof.
  destruct k as [ev [[] | e]]; cbn; [now rewrite app_nil_r | reflexivity].
Qed.

(** The lines of the diff, in the order of lines 212-218. *)
Lemma print_diff_all (w : Env) (d : DiffResult) :
  let lines :=
    if nonempty (added d) || nonempty (removed d) then
      MsgCompareHeader
        :: (if nonempty (added d) then [MsgAdded (added d)] else [])
        ++ (if nonempty (removed d) then [MsgRemoved (removed d)] else [])
        ++ (if nonempty (newDangerous d)
            then [MsgNewDangerous (newDangerous d)] else [])
    else [] in
  print_diff w d =
  (List.map Print (rendered w lines),
   match first_failure w lines with
   | None => Ok tt
   | Some e => Raise (Error e)
   end).
Proof.
  cbv zeta. unfold print_diff, when.
  destruct (added d) as [| a1 la]; destruct (removed d) as [| r1 lr];
    destruct (newDangerous d) as [| n1 ln]; cbn [nonempty orb app];
    try reflexivity;
    rewrite ?ret_bind, ?bind_ret;
    repeat first [ apply print_last_run | apply print_cons_run ].
Qed.

Lemma first_failure_console (w : Env) (ms : list message) (e : exn) :
  first_failure w ms = Some e -> exists m, In m ms /\ console w (Print m) = Some e.
Proof.
  induction ms as [| m ms IH]; cbn; [discriminate |].
  destruct (console w (Print m)) as [x |] eqn:Hc.
  - intros [= <-]. exists m. auto.
  - intros H. destruct (IH H) as [m' [Hin Hm']]. exists m'. auto.
Qed.

Lemma rendered_all (w : Env) (ms : list message) :
  first_failure w ms = None -> rendered w ms = ms.
Proof.
  induction ms as [| m ms IH]; cbn; [reflexivity |].
  destruct (console w (Print m)); [discriminate |].
  intros H. now rewrite IH.
Qed.

Lemma print_diff_ends (w : Env) (d : DiffResult) :
  prints_only (trace (print_diff w d)) /\
  forall r, status (print_diff w d) = Raise r ->
    exists e ev, r = Error e /\ console w ev = Some e.
Proof.
  rewrite print_diff_all. cbv zeta. cbn [trace status fst snd].
  split.
  - intros e He. apply in_map_iff in He. destruct He as [m [<- _]]. now exists m.
  - intros r.
    match goal with
    | |- context [first_failure w ?ms] =>
        destruct (first_failure w ms) as [x |] eqn:Hf
    end; [| discriminate].
    intros [= <-]. destruct (first_failure_console _ _ Hf) as [m [_ Hm]].
    eauto.
Qed.

Lemma export_ends (w : Env) (a : Args) (r0 : Report) :
  List.filter is_json_file (trace (export_if_requested w a r0)) = written w a r0 /\
  List.filter is_table (trace (export_if_requested w a r0)) = [] /\
  forall r, status (export_if_requested w a r0) = Raise r ->
    exists e ev, r = Error e /\ console w ev = Some e.
Proof.
  unfold export_if_requested, written.
  destruct (output a) as [p |]; [| cbn; repeat split; discriminate].
  rewrite export_json_run.
  destruct (can_write w p).
  - destruct (console w (Print (MsgJsonSaved p))) as [x |];
      [destruct (console w (Print (MsgJsonWriteError p SavedLineFailed)))
         as [y |] eqn:Hc |];
      cbn; repeat split; try discriminate.
    intros r [= <-]. eauto.
  - destruct (console w (Print (MsgJsonWriteError p WriteFailed))) as [y |] eqn:Hc;
      cbn; repeat split; try discriminate.
    intros r [= <-]. eauto.
Qed.

(** The end of a run that has its diff: it is left with exit code 0 or
    3, or with what the console raised. *)
Lemma finish_ends (w : Env) (a : Args) (perms1 : list PermissionRecord)
      (d : DiffResult) :
  match status (finish w a perms1 d) with
  | Ok _ => False
  | Raise (Exit c) => c = 0%N \/ c = 3%N
  | Raise (Error e) => exists ev, console w ev = Some e
  end.
Proof.
  rewrite finish_run. cbv zeta.
  destruct (print_diff_ends w d) as [_ Hp].
  destruct (export_ends w a {| permissions := perms1; diff := Some d |})
    as [_ [_ He]].
  destruct (status (print_diff w d)) as [[] | r].
  - destruct (policy_fires a d).
    + destruct (console w (Print MsgPolicyFail)) as [x |] eqn:Hc;
        cbn [status snd]; [eauto |].
      destruct (status (export_if_requested w a
                          {| permissions := perms1; diff := Some d |})) as [[] | r];
        [auto |].
      destruct (He r eq_refl) as [e [ev [-> Hc']]]. eauto.
    + cbn [status snd].
      destruct (status (export_if_requested w a
                          {| permissions := perms1; diff := Some d |})) as [[] | r];
        [auto |].
      destruct (He r eq_refl) as [e [ev [-> Hc']]]. eauto.
  - cbn [status snd]. destruct (Hp r eq_refl) as [e [ev [-> Hc]]]. eauto.
Qed.

(** *** How a run ends *)

(** X10: the outcomes of [load_manifest_from_apk].  It returns bytes
    exactly when the path is a readable file from which the entry
    [AndroidManifest.xml] can be read, and then prints nothing.  In every
    other case but one it goes on to print one line: the not-found line
    when [exists()] is false, the extraction line otherwise; it returns
    [None] exactly when the console renders that line, and raises what
    the console raises when it does not.  The one other case is a path
    on which [exists()] itself raises: that exception leaves the
    function, the check standing outside the [try]. *)
Theorem load_manifest_from_apk_outcomes (w : Env) (p : path) :
  let run := load_manifest_from_apk w p in
  let line := load_failure_line w p in
  let loadable := exists b data, fs w p = File b /\ unzip_manifest w b = Some data in
  (forall data,
     status run = Ok (Some data) <->
     exists b, fs w p = File b /\ unzip_manifest w b = Some data) /\
  (status run = Ok None <->
   ~ loadable /\ (forall e, fs w p <> BadPath e) /\ console w line = None) /\
  (forall e,
     status run = Raise (Error e) <->
     fs w p = BadPath e \/
     (~ loadable /\ (forall e', fs w p <> BadPath e') /\ console w line = Some e)) /\
  (forall c, status run <> Raise (Exit c)) /\
  trace run = match status run with Ok None => [line] | _ => [] end.
Proof.
  cbv zeta. rewrite load_apk_run. cbv zeta.
  destruct (fs w p) as [| x | x | | b] eqn:Hfs;
    [| | | | destruct (unzip_manifest w b) as [data0 |] eqn:Hz];
    try (destruct (console w (load_failure_line w p)) as [y |] eqn:Hc);
    cbn [status trace fst snd];
    (split; [intros data; split;
               [try discriminate; intros [= <-]; eauto
               | intros [b' [H1 H2]]; try discriminate; congruence] |]);
    (split; [split;
               [try discriminate; intros _; repeat split; try discriminate;
                intros [b' [d' [H1 H2]]]; try discriminate; congruence
               | intros [Hl [Hb Hcc]]; try discriminate; try congruence;
                 try (exfalso; apply Hl; eauto; fail);
                 try (exfalso; eapply Hb; eauto; fail)] |]);
    (split; [intros e; split;
               [try discriminate; intros [= <-]; auto; right;
                repeat split; try discriminate;
                intros [b' [d' [H1 H2]]]; try discriminate; congruence
               | intros [Hb | [Hl [Hb Hcc]]]; try discriminate; try congruence;
                 try (exfalso; apply Hl; eauto; fail);
                 try (exfalso; eapply Hb; eauto; fail)] |]);
    (split; [intros c; discriminate | reflexivity]).
Qed.

(** X11: [analyze] never returns: it is left with [typer.Exit] of code
    0, 1 or 3, or with an exception that nothing catches.  Such an
    exception has one of three origins: the console raised it on a line
    or on the table; the read of a manifest path raised it (the base
    path when no [--apk] is given, the comparison path when no
    [--compare-apk] is given); [exists()] raised it on an archive path.
    Nothing else comes out: not the [KeyError] of the lookup in
    [diff_permissions], and nothing that the two [try] blocks of the
    loaders or the write of the report can raise. *)
Theorem analyze_ends (w : Env) (a : Args) :
  match status (analyze w a) with
  | Ok _ => False
  | Raise (Exit c) => c = 0%N \/ c = 1%N \/ c = 3%N
  | Raise (Error e) => accounted w a e
  end.
Proof.
  rewrite analyze_run.
  pose proof (base_stage_raise w a) as Hb.
  destruct (status (base_stage w a)) as [perms1 | r].
  - destruct (compare_requested a).
    + pose proof (compare_stage_raise w a perms1) as Hc.
      destruct (status (compare_stage w a perms1)) as [d | r]; cbn [status snd].
      * pose proof (finish_ends w a perms1 d) as Hf.
        destruct (status (finish w a perms1 d)) as [[] | [c | e]];
          [exact Hf | tauto | now left].
      * destruct (Hc r eq_refl) as [e [-> Hacc]]. exact Hacc.
    + cbv zeta. cbn [status snd].
      destruct (export_ends w a {| permissions := perms1; diff := None |})
        as [_ [_ He]].
      destruct (status (export_if_requested w a
                          {| permissions := perms1; diff := None |})) as [[] | r];
        [now left |].
      destruct (He r eq_refl) as [e [ev [-> Hc]]]. left. eauto.
  - cbn [status snd]. destruct (Hb r eq_refl) as [-> | [e [-> H]]]; auto.
Qed.

(** X12: [analyze] raises [typer.Exit(code=3)] exactly when the policy
    flag is set, a comparison input is given, both stages go through,
    the [newDangerous] list of the diff is not empty, and the console
    renders what stands before the exit: the lines of the diff, the
    policy line and, when an output path is given, the lines of the
    export. *)
Theorem exit_3_iff (w : Env) (a : Args) :
  status (analyze w a) = Raise (Exit 3) <->
  fail_on_new_dangerous a = true /\ compare_requested a = true /\
  exists perms1 d,
    status (base_stage w a) = Ok perms1 /\
    status (compare_stage w a perms1) = Ok d /\
    newDangerous d <> [] /\
    status (print_diff w d) = Ok tt /\
    console w (Print MsgPolicyFail) = None /\
    status (export_if_requested w a {| permissions := perms1; diff := Some d |})
      = Ok tt.
Proof.
  rewrite analyze_run. split.
  - pose proof (base_stage_raise w a) as Hb.
    destruct (status (base_stage w a)) as [perms1 | r] eqn:Hbs;
      [| cbn; intros [= ->]; destruct (Hb _ eq_refl) as [H | [e [H _]]];
         discriminate H].
    destruct (compare_requested a).
    + pose proof (compare_stage_raise w a perms1) as Hc.
      destruct (status (compare_stage w a perms1)) as [d | r] eqn:Hcs;
        [| cbn; intros [= ->]; destruct (Hc _ eq_refl) as [e [H _]];
           discriminate H].
      cbn [status snd]. rewrite finish_run. cbv zeta.
      destruct (print_diff_ends w d) as [_ Hp].
      destruct (export_ends w a {| permissions := perms1; diff := Some d |})
        as [_ [_ He]].
      destruct (status (print_diff w d)) as [[] | r] eqn:Hps;
        [| cbn; intros [= ->]; destruct (Hp _ eq_refl) as [e [ev [H _]]];
           discriminate H].
      destruct (policy_fires a d) eqn:Hpol.
      * destruct (console w (Print MsgPolicyFail)) eqn:Hline; [discriminate |].
        cbn [status snd].
        destruct (status (export_if_requested w a
                            {| permissions := perms1; diff := Some d |}))
          as [[] | r] eqn:Hes;
          [| intros [= ->]; destruct (He _ eq_refl) as [e [ev [H _]]];
             discriminate H].
        intros _. unfold policy_fires in Hpol.
        apply andb_true_iff in Hpol. destruct Hpol as [Hflag Hn].
        repeat split; try assumption.
        exists perms1, d. repeat split; try assumption.
        now apply nonempty_true.
      * cbn [status snd].
        destruct (status (export_if_requested w a
                            {| permissions := perms1; diff := Some d |}))
          as [[] | r]; [discriminate |].
        intros [= ->]. destruct (He _ eq_refl) as [e [ev [H _]]]. discriminate H.
    + cbv zeta. cbn [status snd].
      destruct (export_ends w a {| permissions := perms1; diff := None |})
        as [_ [_ He]].
      destruct (status (export_if_requested w a
                          {| permissions := perms1; diff := None |})) as [[] | r];
        [discriminate |].
      intros [= ->]. destruct (He _ eq_refl) as [e [ev [H _]]]. discriminate H.
  - intros [Hflag [Hreq [perms1 [d [Hb [Hc [Hn [Hp [Hline He]]]]]]]]].
    rewrite Hb, Hreq, Hc. cbn [status snd]. rewrite finish_run. cbv zeta.
    rewrite Hp. unfold policy_fires.
    rewrite Hflag, (proj2 (nonempty_true _) Hn), Hline. cbn [andb status snd].
    now rewrite He.
Qed.

Lemma load_base_exit_1 (w : Env) (a : Args) :
  status (load_base w a) = Raise (Exit 1) <->
  apk a = None /\ manifest a = None /\ console w (Print MsgInputMissing) = None.
Proof.
  split.
  - intros H. destruct (load_base_ends w a) as [_ Hr].
    destruct (Hr _ H) as [[_ Hin] | [e [He _]]]; [exact Hin | discriminate He].
  - intros [Ha [Hm Hc]]. unfold load_base. rewrite Ha, Hm, print_run, Hc.
    reflexivity.
Qed.

(** X13: [analyze] raises [typer.Exit(code=1)] exactly in two cases:
    neither base input is given and the console renders the line that
    says so; or the loaded base data does not parse (which includes a
    base archive that could not be read) and the console renders the
    parse error line.  Until then nothing but console lines and the
    color switch has happened: no table is shown and no file is
    written.  (A run that is left with an uncaught exception is not one
    of these, whatever exit status the interpreter then gives the
    process.) *)
Theorem exit_1_iff (w : Env) (a : Args) :
  (status (analyze w a) = Raise (Exit 1) <->
   (apk a = None /\ manifest a = None /\
    console w (Print MsgInputMissing) = None) \/
   (exists data1, status (load_base w a) = Ok data1 /\
                  parse_attempt w data1 = None /\
                  console w (Print (MsgParseError data1)) = None)) /\
  (status (analyze w a) = Raise (Exit 1) ->
   forall e, In e (trace (analyze w a)) -> e = SetNoColor \/ exists m, e = Print m).
Proof.
  assert (Hiff : status (analyze w a) = Raise (Exit 1) <->
                 status (base_stage w a) = Raise (Exit 1)).
  { rewrite analyze_run.
    destruct (status (base_stage w a)) as [perms1 | r];
      [| split; intros [= ->]; reflexivity].
    split; [| discriminate].
    destruct (compare_requested a).
    - pose proof (compare_stage_raise w a perms1) as Hc.
      destruct (status (compare_stage w a perms1)) as [d | r]; cbn [status snd].
      + pose proof (finish_ends w a perms1 d) as Hf. intros H.
        rewrite H in Hf. destruct Hf as [Hf | Hf]; discriminate Hf.
      + intros [= ->]. destruct (Hc _ eq_refl) as [e [H _]]. discriminate H.
    - cbv zeta. cbn [status snd].
      destruct (export_ends w a {| permissions := perms1; diff := None |})
        as [_ [_ He]].
      destruct (status (export_if_requested w a
                          {| permissions := perms1; diff := None |})) as [[] | r];
        [discriminate |].
      intros [= ->]. destruct (He _ eq_refl) as [e [ev [H _]]]. discriminate H. }
  split.
  - rewrite Hiff, base_stage_status, <- load_base_exit_1.
    destruct (status (load_base w a)) as [data1 | r] eqn:Hload.
    + destruct (parse_attempt w data1) as [root |] eqn:Hp.
      * destruct (console w (Table (lit "Permissions (Base)") (base_set a root)));
          (split; [discriminate |]);
          (intros [H | [data [[= <-] [Hn _]]]]; [discriminate H | congruence]).
      * destruct (console w (Print (MsgParseError data1))) as [x |] eqn:Hc.
        -- split; [discriminate |].
           intros [H | [data [[= <-] [_ Hn]]]]; [discriminate H | congruence].
        -- split; [| reflexivity]. intros _. right. now exists data1.
    + split.
      * intros [= ->]. now left.
      * intros [[= ->] | [data [H _]]]; [reflexivity | discriminate H].
  - intros Hs. apply Hiff in Hs. rewrite analyze_run, Hs. cbn [trace fst].
    rewrite base_stage_run in *. cbv zeta in *.
    destruct (load_base_ends w a) as [Hprints _].
    intros e He.
    assert (Hnc : In e (if no_color a then [SetNoColor] else []) -> e = SetNoColor).
    { destruct (no_color a); [intros [<- | []]; reflexivity | intros []]. }
    destruct (status (load_base w a)) as [data1 | x].
    + destruct (parse_attempt w data1) as [root |].
      * destruct (console w (Table (lit "Permissions (Base)") (base_set a root)));
          discriminate.
      * destruct (console w (Print (MsgParseError data1))); [discriminate |].
        cbn [trace fst] in He. rewrite !in_app_iff in He.
        destruct He as [He | [He | [<- | []]]]; auto.
        right. now eexists.
    + cbn [trace fst] in He. rewrite in_app_iff in He.
      destruct He as [He | He]; auto.
Qed.

(** *** The JSON artifact *)

Lemma prints_only_no_json (ev : list event) :
  prints_only ev -> List.filter is_json_file ev = [].
Proof.
  induction ev as [| e ev IH]; intros H; simpl; [reflexivity |].
  destruct (H e (or_introl eq_refl)) as [m ->]. simpl.
  apply IH. intros e' He'. apply H. now right.
Qed.

Lemma base_stage_no_json (w : Env) (a : Args) :
  List.filter is_json_file (trace (base_stage w a)) = [].
Proof.
  rewrite base_stage_run. cbv zeta.
  destruct (load_base_ends w a) as [Hp _].
  apply prints_only_no_json in Hp.
  assert (Hnc : List.filter is_json_file (if no_color a then [SetNoColor] else []) = [])
    by now destruct (no_color a).
  destruct (status (load_base w a)) as [data1 | e];
    [destruct (parse_attempt w data1) as [root |];
     match goal with
     | |- context [console w ?ev] => destruct (console w ev)
     end |];
    cbn [trace fst]; rewrite ?filter_app, Hnc, Hp; reflexivity.
Qed.

Lemma compare_stage_no_json (w : Env) (a : Args) (perms1 : list PermissionRecord) :
  List.filter is_json_file (trace (compare_stage w a perms1)) = [].
Proof.
  rewrite compare_stage_run.
  destruct (load_compare_ends w a) as [Hp _].
  apply prints_only_no_json in Hp.
  destruct (status (load_compare w a)) as [data2 | e]; [| exact Hp].
  destruct (parse_manifest_ends w data2) as [Hq _].
  apply prints_only_no_json in Hq. cbv zeta.
  destruct (status (parse_manifest w data2));
    [destruct (diff_permissions perms1 (compare_set (parse_attempt w data2))) |];
    cbn [trace fst]; now rewrite filter_app, Hp, Hq.
Qed.

(** The run after the diff calls the export at most once. *)
Lemma finish_json_files (w : Env) (a : Args) (perms1 : list PermissionRecord)
      (d : DiffResult) :
  List.filter is_json_file (trace (finish w a perms1 d)) = [] \/
  List.filter is_json_file (trace (finish w a perms1 d))
    = written w a {| permissions := perms1; diff := Some d |}.
Proof.
  rewrite finish_run. cbv zeta.
  destruct (print_diff_ends w d) as [Hp _].
  apply prints_only_no_json in Hp.
  destruct (export_ends w a {| permissions := perms1; diff := Some d |})
    as [He _].
  destruct (status (print_diff w d)) as [[] | r]; [| now left].
  destruct (policy_fires a d);
    [destruct (console w (Print MsgPolicyFail)); [now left |] |];
    right; cbn [trace fst];
    rewrite filter_app, Hp; cbn [List.filter is_json_file app]; exact He.
Qed.

(** The files written by a run. *)
Lemma analyze_json_files (w : Env) (a : Args) :
  List.filter is_json_file (trace (analyze w a)) = [] \/
  exists perms1,
    status (base_stage w a) = Ok perms1 /\
    ((compare_requested a = false /\
      List.filter is_json_file (trace (analyze w a))
        = written w a {| permissions := perms1; diff := None |}) \/
     (compare_requested a = true /\
      exists d,
        status (compare_stage w a perms1) = Ok d /\
        List.filter is_json_file (trace (analyze w a))
          = written w a {| permissions := perms1; diff := Some d |})).
Proof.
  rewrite analyze_run. cbv zeta.
  pose proof (base_stage_no_json w a) as Hb.
  destruct (status (base_stage w a)) as [perms1 | e] eqn:Hbs; [| now left].
  destruct (compare_requested a).
  - pose proof (compare_stage_no_json w a perms1) as Hc.
    destruct (status (compare_stage w a perms1)) as [d | e] eqn:Hcs;
      cbn [trace fst].
    + rewrite !filter_app, Hb, Hc. cbn [app].
      destruct (finish_json_files w a perms1 d) as [H | H]; [now left |].
      right. exists perms1. split; [reflexivity |]. right.
      split; [reflexivity |]. exists d. split; [exact Hcs | exact H].
    + left. now rewrite filter_app, Hb, Hc.
  - cbn [trace fst]. right. exists perms1. split; [reflexivity |]. left.
    split; [reflexivity |].
    destruct (export_ends w a {| permissions := perms1; diff := None |}) as [He _].
    now rewrite filter_app, Hb, He.
Qed.

Lemma written_length (w : Env) (a : Args) (r : Report) :
  List.length (written w a r) <= 1.
Proof.
  unfold written. destruct (output a) as [p |]; [destruct (can_write w p) |];
    simpl; lia.
Qed.

Lemma written_In (w : Env) (a : Args) (r r0 : Report) (p : path) :
  In (JsonFile p r) (written w a r0) ->
  output a = Some p /\ r = r0 /\ can_write w p = true.
Proof.
  unfold written. destruct (output a) as [p0 |]; [| intros []].
  destruct (can_write w p0) eqn:Hcw; [| intros []].
  intros [[= -> ->] | []]. auto.
Qed.

Lemma base_set_valid (a : Args) (root : Xml.element) :
  ascending (names (base_set a root)) /\
  (forall q, In q (base_set a root) ->
     classified q /\ In (name q) (extract_permissions (Some root)) /\
     forall cats, only a = Some cats -> cats <> [] -> In (category q) cats).
Proof.
  split; [apply DiffFacts.pipeline_set_ascending |].
  intros q Hq. unfold base_set, apply_only in Hq.
  assert (Hall : In q (List.map classify_permission
                         (extract_permissions (Some root)))).
  { destruct (only a) as [cats |]; [| exact Hq].
    destruct (nonempty cats); [| exact Hq].
    apply filter_In in Hq. tauto. }
  destruct (classified_record _ _ Hall) as [Hc Hn].
  repeat split; try assumption.
  intros cats Ho Hne. rewrite Ho in Hq.
  rewrite (proj2 (nonempty_true cats) Hne) in Hq.
  apply filter_In in Hq. apply mem_In. tauto.
Qed.

(** A base stage that goes through has loaded and parsed its manifest
    and shown the table of its value. *)
Lemma base_stage_Ok_inv (w : Env) (a : Args) (perms1 : list PermissionRecord) :
  status (base_stage w a) = Ok perms1 ->
  exists data1 root,
    status (load_base w a) = Ok data1 /\
    parse_attempt w data1 = Some root /\
    perms1 = base_set a root /\
    In (Table (lit "Permissions (Base)") perms1) (trace (base_stage w a)).
Proof.
  rewrite base_stage_run. cbv zeta.
  destruct (status (load_base w a)) as [data1 | e]; [| discriminate].
  destruct (parse_attempt w data1) as [root |] eqn:Hparse.
  - destruct (console w (Table (lit "Permissions (Base)") (base_set a root)));
      [discriminate |].
    cbn [status trace fst snd]. intros [= <-]. exists data1, root.
    repeat split; try reflexivity; try assumption.
    rewrite !in_app_iff. right. right. now left.
  - destruct (console w (Print (MsgParseError data1))); discriminate.
Qed.

Lemma analyze_trace_base (w : Env) (a : Args) :
  exists rest, trace (analyze w a) = trace (base_stage w a) ++ rest.
Proof.
  rewrite analyze_run.
  destruct (status (base_stage w a)) as [perms1 | e];
    [destruct (compare_requested a);
     [destruct (status (compare_stage w a perms1)) |] |];
    cbn [trace fst]; eexists; try reflexivity.
  symmetry. apply app_nil_r.
Qed.

(** X14: a run writes at most one JSON file.  When it writes report
    [r] to path [p], then [p] is the output path given; the permissions
    of [r] are the value of the base stage, the same list the table has
    shown; they are in strictly ascending order of name, each record is
    the classification of its name, and under a non-empty [only] list
    every category is in the list; [r] holds a diff exactly when a
    comparison input was given, and that diff is the value of the
    comparison stage. *)
Theorem json_artifact_content (w : Env) (a : Args) :
  List.length (List.filter is_json_file (trace (analyze w a))) <= 1 /\
  (forall p r,
     In (JsonFile p r) (trace (analyze w a)) ->
     output a = Some p /\
     status (base_stage w a) = Ok (permissions r) /\
     In (Table (lit "Permissions (Base)") (permissions r)) (trace (analyze w a)) /\
     ascending (names (permissions r)) /\
     (forall q, In q (permissions r) ->
        classified q /\
        forall cats, only a = Some cats -> cats <> [] -> In (category q) cats) /\
     match diff r with
     | None => compare_requested a = false
     | Some d =>
         compare_requested a = true /\
         status (compare_stage w a (permissions r)) = Ok d
     end).
Proof.
  pose proof (analyze_json_files w a) as Hfiles.
  split.
  - destruct Hfiles as [-> | [perms1 [_ [[_ ->] | [_ [d [_ ->]]]]]]];
      [simpl; lia | apply written_length | apply written_length].
  - intros p r Hin.
    assert (Hf : In (JsonFile p r) (List.filter is_json_file (trace (analyze w a))))
      by (apply filter_In; now split).
    destruct Hfiles as [H | [perms1 [Hb Hcases]]];
      [rewrite H in Hf; destruct Hf |].
    destruct (base_stage_Ok_inv w a Hb) as [data1 [root [_ [_ [Hroot Htable]]]]].
    destruct (base_set_valid a root) as [Hasc Hrec].
    assert (Hshown : In (Table (lit "Permissions (Base)") perms1)
                        (trace (analyze w a))).
    { destruct (analyze_trace_base w a) as [rest ->].
      rewrite in_app_iff. now left. }
    destruct Hcases as [[Hreq Hw] | [Hreq [d [Hc Hw]]]];
      rewrite Hw in Hf; apply written_In in Hf; destruct Hf as [Ho [-> _]];
      cbn [permissions diff]; rewrite Hroot in *;
      repeat split; try assumption;
      try (now apply Hrec); try (intros cats; now apply Hrec).
Qed.

(** [json_artifact_content] on the run with [--only normal] and an
    output path: the one file holds the filtered base set. *)
Lemma json_artifact_content_witness :
  exists r,
    In (JsonFile (lit "report.json") r)
       (trace (analyze Demo.demo_env Demo.filtered_args)) /\
    names (permissions r) = [Demo.INTERNET] /\
    ascending (names (permissions r)).
Proof.
  eexists. split; [| split].
  - vm_compute. do 5 right. left. reflexivity.
  - reflexivity.
  - destruct (json_artifact_content Demo.demo_env Demo.filtered_args) as [_ H].
    refine (proj1 (proj2 (proj2 (proj2 (H (lit "report.json") _ _))))).
    vm_compute. do 5 right. left. reflexivity.
Defined.

(** *** The diff of a run *)

Lemma classified_lookup (ns : list str) (n : str) :
  In n ns ->
  PyDict.get (PyDict.comprehension name (List.map classify_permission ns)) n
  = Some (classify_permission n).
Proof.
  intros Hin. set (new := List.map classify_permission ns).
  destruct (PyDict.get (PyDict.comprehension name new) n) as [p |] eqn:E.
  - destruct (PyDictFacts.comprehension_get name new n E) as [Hp Hname].
    apply classified_record in Hp. destruct Hp as [Hp _].
    now rewrite Hp, Hname.
  - apply PyDictFacts.get_None in E. exfalso. apply E.
    apply PyDictFacts.comprehension_keys_In.
    fold (names new). unfold new. now rewrite DiffFacts.classified_names.
Qed.

(** The diff of a run, from what the differ is proved to do. *)
Lemma run_diff_facts (w : Env) (a : Args) (perms1 : list PermissionRecord)
      (d : DiffResult) :
  status (compare_stage w a perms1) = Ok d ->
  exists data2,
    status (load_compare w a) = Ok data2 /\
    (forall n, In n (added d) <->
               In n (extract_permissions (parse_attempt w data2)) /\
               ~ In n (names perms1)) /\
    (forall n, In n (removed d) <->
               In n (names perms1) /\
               ~ In n (extract_permissions (parse_attempt w data2))) /\
    (forall n, In n (newDangerous d) <->
               In n (added d) /\ category (classify_permission n) = lit "dangerous") /\
    ascending (added d) /\ ascending (newDangerous d) /\
    (ascending (names perms1) -> ascending (removed d)).
Proof.
  intros Hc. destruct (compare_stage_Ok_inv w a perms1 Hc) as [data2 [Hl [_ Hd']]].
  exists data2. split; [exact Hl |].
  set (ns := extract_permissions (parse_attempt w data2)) in *.
  destruct (DiffFacts.diff_permissions_facts perms1
              (compare_set (parse_attempt w data2)))
    as [d' [Hd [Hadd [Hrem [Hnd [Hsn Hso]]]]]].
  rewrite Hd in Hd'. injection Hd' as Heq. subst d'.
  assert (Hnames : names (compare_set (parse_attempt w data2)) = ns)
    by apply DiffFacts.classified_names.
  rewrite Hnames in *.
  destruct Hsn as [Ha Hn]; [apply DiffFacts.extracted_ascending |].
  split; [exact Hadd |]. split; [exact Hrem |].
  split; [| split; [exact Ha | split; [exact Hn | exact Hso]]].
  intros n. rewrite Hnd.
  assert (Hlook : In n (added d) ->
                  is_dangerous_in
                    (PyDict.comprehension name (compare_set (parse_attempt w data2))) n
                  = eqb (category (classify_permission n)) (lit "dangerous")).
  { intros Hin. apply Hadd in Hin. destruct Hin as [Hin _].
    unfold is_dangerous_in, compare_set. fold ns.
    now rewrite (classified_lookup ns n Hin). }
  split; intros [Hin Hdang]; (split; [exact Hin |]).
  - rewrite (Hlook Hin) in Hdang. now apply eqb_eq.
  - rewrite (Hlook Hin). now apply eqb_eq.
Qed.

(** X15: in every run that reaches the diff, the three lists of the
    diff are in strictly ascending order, hence free of repetitions;
    [added] holds the permissions extracted from the comparison
    manifest that are not names of the base set, and each name in
    [newDangerous] is one that the catalog classifies as [dangerous]. *)
Theorem run_diff_ascending (w : Env) (a : Args)
        (perms1 : list PermissionRecord) (d : DiffResult) :
  status (base_stage w a) = Ok perms1 ->
  status (compare_stage w a perms1) = Ok d ->
  ascending (added d) /\ ascending (removed d) /\ ascending (newDangerous d) /\
  (exists data2,
     status (load_compare w a) = Ok data2 /\
     forall n, In n (added d) <->
               In n (extract_permissions (parse_attempt w data2)) /\
               ~ In n (names perms1)) /\
  (forall n, In n (newDangerous d) ->
     category (classify_permission n) = lit "dangerous").
Proof.
  intros Hb Hc.
  destruct (base_stage_Ok_inv w a Hb) as [data1 [root [_ [_ [Hroot _]]]]].
  destruct (run_diff_facts w a perms1 Hc)
    as [data2 [Hl [Hadd [_ [Hnd [Ha [Hn Hr]]]]]]].
  repeat split; try assumption.
  - apply Hr. rewrite Hroot. apply DiffFacts.pipeline_set_ascending.
  - exists data2. split; [exact Hl | exact Hadd].
  - intros n Hin. now apply Hnd in Hin.
Qed.

(** [run_diff_ascending] on the run with [--only normal]. *)
Lemma run_diff_ascending_witness :
  ascending [Demo.CAMERA] /\
  category (classify_permission Demo.CAMERA) = lit "dangerous".
Proof.
  destruct (run_diff_ascending Demo.demo_env Demo.filtered_args
              (perms1 := [classify_permission Demo.INTERNET])
              (d := {| added := [Demo.CAMERA]; removed := [];
                       newDangerous := [Demo.CAMERA] |}))
    as [Ha [_ [_ [_ Hn]]]].
  - vm_compute. reflexivity.
  - vm_compute. reflexivity.
  - split; [exact Ha | apply Hn; now left].
Defined.

(** *** Options that change nothing *)

(** X16: the archive options take precedence.  When [--apk] is given,
    the value of [--manifest] has no effect on the run; when
    [--compare-apk] is given, the value of [--compare-manifest] has no
    effect on the run. *)
Theorem archive_option_wins (w : Env) (a : Args) (m : option path) :
  (apk a <> None -> analyze w (with_manifest a m) = analyze w a) /\
  (compare_apk a <> None -> analyze w (with_compare_manifest a m) = analyze w a).
Proof.
  destruct a as [ap man cap cman out onl fl nc]. split; cbn; intros H.
  - destruct ap as [p |]; [reflexivity | congruence].
  - destruct cap as [p |]; [reflexivity | congruence].
Qed.

(** X17: [--no-color] changes nothing but the color switch of the
    console, made before anything else: the run with the flag is the
    run without it, after one [SetNoColor] event. *)
Theorem no_color_only_switches (w : Env) (a : Args) :
  analyze w (with_no_color a true) =
  (SetNoColor :: trace (analyze w (with_no_color a false)),
   status (analyze w (with_no_color a false))).
Proof.
  assert (Hbase : base_stage w (with_no_color a true) =
                  (SetNoColor :: trace (base_stage w (with_no_color a false)),
                   status (base_stage w (with_no_color a false)))).
  { rewrite !base_stage_run. cbv zeta.
    change (load_base w (with_no_color a true)) with (load_base w a).
    change (load_base w (with_no_color a false)) with (load_base w a).
    change (no_color (with_no_color a true)) with true.
    change (no_color (with_no_color a false)) with false.
    destruct (status (load_base w a)) as [data1 | e]; [| reflexivity].
    destruct (parse_attempt w data1) as [root |].
    - change (base_set (with_no_color a true) root) with (base_set a root).
      change (base_set (with_no_color a false) root) with (base_set a root).
      now destruct (console w (Table (lit "Permissions (Base)") (base_set a root))).
    - now destruct (console w (Print (MsgParseError data1))). }
  rewrite !analyze_run.
  change (compare_requested (with_no_color a true)) with (compare_requested a).
  change (compare_requested (with_no_color a false)) with (compare_requested a).
  rewrite Hbase. cbn [status trace fst snd].
  destruct (status (base_stage w (with_no_color a false))) as [perms1 | e];
    [| reflexivity].
  change (compare_stage w (with_no_color a true) perms1)
    with (compare_stage w a perms1).
  change (compare_stage w (with_no_color a false) perms1)
    with (compare_stage w a perms1).
  destruct (compare_requested a).
  - destruct (status (compare_stage w a perms1)) as [d | e]; reflexivity.
  - reflexivity.
Qed.

(** *** Runs in which the console renders the lines *)

Lemma print_diff_Ok_lines (w : Env) (d : DiffResult) :
  status (print_diff w d) = Ok tt ->
  (added d <> [] -> In (Print (MsgAdded (added d))) (trace (print_diff w d))) /\
  (removed d <> [] -> In (Print (MsgRemoved (removed d))) (trace (print_diff w d))) /\
  (added d <> [] \/ removed d <> [] -> newDangerous d <> [] ->
   In (Print (MsgNewDangerous (newDangerous d))) (trace (print_diff w d))).
Proof.
  rewrite print_diff_all. cbv zeta. cbn [status trace fst snd].
  match goal with
  | |- context [first_failure w ?ms] =>
      destruct (first_failure w ms) eqn:Hf; [discriminate |];
      rewrite (rendered_all _ _ Hf); clear Hf
  end.
  intros _.
  destruct (added d) as [| a1 la]; destruct (removed d) as [| r1 lr];
    destruct (newDangerous d) as [| n1 ln]; cbn;
    repeat split; intros; try congruence; tauto.
Qed.

Lemma finish_trace_diff (w : Env) (a : Args) (perms1 : list PermissionRecord)
      (d : DiffResult) :
  exists rest, trace (finish w a perms1 d) = trace (print_diff w d) ++ rest.
Proof.
  rewrite finish_run. cbv zeta.
  destruct (status (print_diff w d)) as [[] | r];
    [destruct (policy_fires a d);
     [destruct (console w (Print MsgPolicyFail)) |] |];
    cbn [trace fst]; eexists; try reflexivity; symmetry; apply app_nil_r.
Qed.

(** X23: the policy exit, when the console renders the lines before it.
    In a run that reaches the diff with the policy flag set and a
    non-empty [newDangerous], once the lines of the diff and the policy
    line are out: without an output path the run ends there with exit
    code 3; with an output path that can be written, the report with
    the diff is written right after the policy line, and when the line
    that reports the file is rendered too, the run ends with exit code
    3 after it.  The file is written before the run ends, however it
    ends. *)
Theorem policy_exit_after_artifact (w : Env) (a : Args) (ev1 ev2 : list event)
        (perms1 : list PermissionRecord) (d : DiffResult) :
  base_stage w a = (ev1, Ok perms1) ->
  compare_requested a = true ->
  compare_stage w a perms1 = (ev2, Ok d) ->
  fail_on_new_dangerous a = true ->
  newDangerous d <> [] ->
  status (print_diff w d) = Ok tt ->
  console w (Print MsgPolicyFail) = None ->
  let report := {| permissions := perms1; diff := Some d |} in
  let before := ev1 ++ ev2 ++ trace (print_diff w d) ++ [Print MsgPolicyFail] in
  (output a = None -> analyze w a = (before, Raise (Exit 3))) /\
  (forall p, output a = Some p -> can_write w p = true ->
     console w (Print (MsgJsonSaved p)) = None ->
     analyze w a =
       (before ++ [JsonFile p report; Print (MsgJsonSaved p)], Raise (Exit 3))) /\
  (forall p, output a = Some p -> can_write w p = true ->
     exists rest, trace (analyze w a) = before ++ JsonFile p report :: rest).
Proof.
  intros Hbase Hreq Hcmp Hflag Hn Hp Hline. cbv zeta.
  rewrite (analyze_compared w a Hbase Hreq Hcmp).
  rewrite finish_run. cbv zeta. rewrite Hp. unfold policy_fires.
  rewrite Hflag, (proj2 (nonempty_true _) Hn), Hline. cbn [andb trace status fst snd].
  unfold export_if_requested.
  split; [| split].
  - intros ->. cbn. now rewrite <- ?app_assoc.
  - intros p -> Hcw Hsaved. rewrite export_json_run, Hcw, Hsaved.
    cbn. now rewrite <- ?app_assoc.
  - intros p -> Hcw. rewrite export_json_run, Hcw.
    destruct (console w (Print (MsgJsonSaved p)));
      [destruct (console w (Print (MsgJsonWriteError p SavedLineFailed))) |];
      eexists; cbn; rewrite <- ?app_assoc; cbn; reflexivity.
Qed.

(** [policy_exit_after_artifact] on the run with [--only normal], the
    policy flag and an output path. *)
Lemma policy_exit_after_artifact_witness :
  analyze Demo.demo_env Demo.filtered_args =
  ([Table (lit "Permissions (Base)") [classify_permission Demo.INTERNET];
    Print MsgCompareHeader;
    Print (MsgAdded [Demo.CAMERA]);
    Print (MsgNewDangerous [Demo.CAMERA]);
    Print MsgPolicyFail;
    JsonFile (lit "report.json")
      {| permissions := [classify_permission Demo.INTERNET];
         diff := Some {| added := [Demo.CAMERA]; removed := [];
                         newDangerous := [Demo.CAMERA] |} |};
    Print (MsgJsonSaved (lit "report.json"))],
   Raise (Exit 3)).
Proof.
  refine (proj1 (proj2
    (policy_exit_after_artifact Demo.demo_env Demo.filtered_args
       (ev1 := [Table (lit "Permissions (Base)") [classify_permission Demo.INTERNET]])
       (ev2 := [])
       (perms1 := [classify_permission Demo.INTERNET])
       (d := {| added := [Demo.CAMERA]; removed := [];
                newDangerous := [Demo.CAMERA] |})
       _ _ _ _ _ _ _)) (lit "report.json") _ _ _);
    try (vm_compute; reflexivity).
  discriminate.
Defined.

(** X24: removals alone never trigger the policy exit.  A run whose
    diff has an empty [added] list has an empty [newDangerous] list and
    is never left with exit code 3, whatever the policy flag; it ends
    with exit code 0 once the console has rendered the lines of the diff
    and of the export. *)
Theorem removals_never_trigger_policy (w : Env) (a : Args) (ev1 ev2 : list event)
        (perms1 : list PermissionRecord) (d : DiffResult) :
  base_stage w a = (ev1, Ok perms1) ->
  compare_requested a = true ->
  compare_stage w a perms1 = (ev2, Ok d) ->
  added d = [] ->
  let report := {| permissions := perms1; diff := Some d |} in
  newDangerous d = [] /\
  status (analyze w a) <> Raise (Exit 3) /\
  (status (print_diff w d) = Ok tt ->
   status (export_if_requested w a report) = Ok tt ->
   analyze w a =
     (ev1 ++ ev2 ++ trace (print_diff w d)
          ++ trace (export_if_requested w a report),
      Raise (Exit 0))).
Proof.
  intros Hbase Hreq Hcmp Hadd. cbv zeta.
  assert (Hnd : newDangerous d = []).
  { assert (Hc : status (compare_stage w a perms1) = Ok d) by now rewrite Hcmp.
    destruct (run_diff_facts w a perms1 Hc) as [data2 [_ [_ [_ [Hn _]]]]].
    destruct (newDangerous d) as [| n l]; [reflexivity |].
    destruct (proj1 (Hn n) (or_introl eq_refl)) as [Hin _].
    rewrite Hadd in Hin. destruct Hin. }
  split; [exact Hnd |].
  rewrite (analyze_compared w a Hbase Hreq Hcmp).
  rewrite finish_run. cbv zeta. unfold policy_fires.
  rewrite Hnd. cbn [nonempty]. rewrite andb_false_r.
  destruct (print_diff_ends w d) as [_ Hp].
  destruct (export_ends w a {| permissions := perms1; diff := Some d |})
    as [_ [_ He]].
  split.
  - destruct (status (print_diff w d)) as [[] | r]; cbn [status snd].
    + destruct (status (export_if_requested w a
                          {| permissions := perms1; diff := Some d |}))
        as [[] | r]; [discriminate |].
      intros [= ->]. destruct (He _ eq_refl) as [e [ev [H _]]]. discriminate H.
    + intros [= ->]. destruct (Hp _ eq_refl) as [e [ev [H _]]]. discriminate H.
  - intros Hpd Hex. rewrite Hpd, Hex. reflexivity.
Qed.

(** [removals_never_trigger_policy] on the scenario of the
    specification: base [CAMERA], comparison manifest without
    permissions, policy flag set. *)
Lemma removals_never_trigger_policy_witness :
  analyze Demo.demo_env Demo.all_removed_args =
  ([Table (lit "Permissions (Base)") [classify_permission Demo.CAMERA];
    Print MsgCompareHeader;
    Print (MsgRemoved [Demo.CAMERA])],
   Raise (Exit 0)).
Proof.
  refine (proj2 (proj2
    (removals_never_trigger_policy Demo.demo_env Demo.all_removed_args
       (ev1 := [Table (lit "Permissions (Base)") [classify_permission Demo.CAMERA]])
       (ev2 := [])
       (perms1 := [classify_permission Demo.CAMERA])
       (d := {| added := []; removed := [Demo.CAMERA]; newDangerous := [] |})
       _ _ _ _)) _ _);
    vm_compute; reflexivity.
Defined.

Lemma export_write_failed (w : Env) (a : Args) (p : path) (r : Report) :
  output a = Some p -> can_write w p = false ->
  console w (Print (MsgJsonWriteError p WriteFailed)) = None ->
  export_if_requested w a r = ([Print (MsgJsonWriteError p WriteFailed)], Ok tt).
Proof.
  intros Ho Hcw Hline. unfold export_if_requested.
  now rewrite Ho, export_json_run, Hcw, Hline.
Qed.

(** X25: a write of the report that fails is a message only.  When the
    output path cannot be written and the console renders the line that
    says so, the run ends as the same run without [--output] ends, and
    prints what that run prints, followed by the one error line if that
    run comes to an end with exit code 0 or 3, and by nothing if it is
    left earlier. *)
Theorem write_failure_is_message_only (w : Env) (a : Args) (p : path) :
  output a = Some p ->
  can_write w p = false ->
  console w (Print (MsgJsonWriteError p WriteFailed)) = None ->
  let quiet := analyze w (with_output a None) in
  status (analyze w a) = status quiet /\
  trace (analyze w a) =
    trace quiet ++
    match status quiet with
    | Raise (Exit c) =>
        if (c =? 1)%N then [] else [Print (MsgJsonWriteError p WriteFailed)]
    | _ => []
    end.
Proof.
  intros Ho Hcw Hline. cbv zeta.
  pose proof (fun r => export_write_failed w a r Ho Hcw Hline) as Hexp.
  assert (Hexp0 : forall r, export_if_requested w (with_output a None) r = ([], Ok tt))
    by reflexivity.
  rewrite !analyze_run.
  change (base_stage w (with_output a None)) with (base_stage w a).
  change (compare_requested (with_output a None)) with (compare_requested a).
  pose proof (base_stage_raise w a) as Hb.
  destruct (status (base_stage w a)) as [perms1 | r] eqn:Hbs.
  - destruct (compare_requested a).
    + change (compare_stage w (with_output a None) perms1)
        with (compare_stage w a perms1).
      pose proof (compare_stage_raise w a perms1) as Hc.
      destruct (status (compare_stage w a perms1)) as [d | r] eqn:Hcs.
      * rewrite !finish_run. cbv zeta.
        change (policy_fires (with_output a None) d) with (policy_fires a d).
        rewrite Hexp, Hexp0.
        destruct (print_diff_ends w d) as [_ Hp].
        destruct (status (print_diff w d)) as [[] | r] eqn:Hps.
        -- destruct (policy_fires a d);
             [destruct (console w (Print MsgPolicyFail)) |];
             cbn; split; try reflexivity;
             rewrite ?app_nil_r, <- ?app_assoc; reflexivity.
        -- destruct (Hp _ eq_refl) as [e [ev [-> _]]].
           cbn. now rewrite ?app_nil_r.
      * destruct (Hc _ eq_refl) as [e [-> _]]. cbn. now rewrite ?app_nil_r.
    + cbv zeta. rewrite Hexp, Hexp0. cbn. now rewrite ?app_nil_r.
  - destruct (Hb _ eq_refl) as [-> | [e [-> _]]]; cbn; now rewrite ?app_nil_r.
Qed.

(** [write_failure_is_message_only] on [--manifest camera.xml --output
    r.json] where nothing can be written. *)
Lemma write_failure_is_message_only_witness :
  status (analyze Demo.readonly_env Demo.plain_output_args) = Raise (Exit 0) /\
  trace (analyze Demo.readonly_env Demo.plain_output_args) =
    [Table (lit "Permissions (Base)") [classify_permission Demo.CAMERA];
     Print (MsgJsonWriteError (lit "r.json") WriteFailed)].
Proof.
  exact (write_failure_is_message_only Demo.readonly_env Demo.plain_output_args
           (p := lit "r.json") eq_refl eq_refl eq_refl).
Defined.

(** X26: the category filter is applied to the base set only.  With a
    non-empty [only] list, a permission that both manifests declare and
    whose category is not in the list is missing from the base set, so
    the diff holds it as added, and as newly dangerous when the catalog
    classifies it as dangerous; under the policy flag such a run does
    not end with exit code 0.  Its names are on the lines of the diff
    whenever the console renders those lines. *)
Theorem filter_excluded_is_added (w : Env) (a : Args) (cats : list str)
        (data1 data2 : option bytes) (root1 : Xml.element)
        (perms1 : list PermissionRecord) (d : DiffResult) (n : str) :
  only a = Some cats -> cats <> [] ->
  status (load_base w a) = Ok data1 ->
  parse_attempt w data1 = Some root1 ->
  status (base_stage w a) = Ok perms1 ->
  compare_requested a = true ->
  status (load_compare w a) = Ok data2 ->
  status (compare_stage w a perms1) = Ok d ->
  In n (extract_permissions (Some root1)) ->
  In n (extract_permissions (parse_attempt w data2)) ->
  ~ In (category (classify_permission n)) cats ->
  perms1 = List.filter (fun p => mem (category p) cats)
             (List.map classify_permission (extract_permissions (Some root1))) /\
  ~ In n (names perms1) /\
  In n (added d) /\
  (status (print_diff w d) = Ok tt ->
   In (Print (MsgAdded (added d))) (trace (analyze w a))) /\
  (category (classify_permission n) = lit "dangerous" ->
   In n (newDangerous d) /\
   (fail_on_new_dangerous a = true -> status (analyze w a) <> Raise (Exit 0)) /\
   (status (print_diff w d) = Ok tt ->
    In (Print (MsgNewDangerous (newDangerous d))) (trace (analyze w a)))).
Proof.
  intros Honly Hne Hload1 Hparse1 Hb Hreq Hload2 Hc Hin1 Hin2 Hcat.
  assert (Hperms : perms1 = List.filter (fun p => mem (category p) cats)
             (List.map classify_permission (extract_permissions (Some root1)))).
  { pose proof Hb as Hb'. rewrite base_stage_status, Hload1, Hparse1 in Hb'.
    destruct (console w (Table (lit "Permissions (Base)") (base_set a root1)));
      [discriminate |].
    injection Hb' as <-. unfold base_set, apply_only.
    now rewrite Honly, (proj2 (nonempty_true cats) Hne). }
  assert (Hout : ~ In n (names perms1)).
  { intros H. unfold names in H. apply in_map_iff in H.
    destruct H as [q [Hq Hin]]. rewrite Hperms in Hin.
    apply filter_In in Hin. destruct Hin as [Hin Hmem].
    apply classified_record in Hin. destruct Hin as [Hcl _].
    apply Hcat. apply mem_In. now rewrite <- Hq, <- Hcl. }
  destruct (run_diff_facts w a perms1 Hc) as [data2' [Hl [Hadd [_ [Hnd _]]]]].
  assert (data2' = data2) by congruence. subst data2'.
  assert (Hadded : In n (added d)) by (apply Hadd; now split).
  assert (Hane : added d <> []) by (intros E; rewrite E in Hadded; destruct Hadded).
  assert (Htrace : forall e, In e (trace (print_diff w d)) ->
                             In e (trace (analyze w a))).
  { intros e He. rewrite analyze_run, Hb, Hreq, Hc. cbn [trace fst].
    destruct (finish_trace_diff w a perms1 d) as [rest ->].
    rewrite !in_app_iff. auto. }
  split; [exact Hperms |]. split; [exact Hout |]. split; [exact Hadded |].
  split.
  - intros Hp. apply Htrace. now apply (print_diff_Ok_lines w d Hp).
  - intros Hd.
    assert (Hnew : In n (newDangerous d)) by (apply Hnd; now split).
    assert (Hnne : newDangerous d <> [])
      by (intros E; rewrite E in Hnew; destruct Hnew).
    split; [exact Hnew |]. split.
    + intros Hflag. rewrite analyze_run, Hb, Hreq, Hc. cbn [status snd].
      rewrite finish_run. cbv zeta. unfold policy_fires.
      rewrite Hflag, (proj2 (nonempty_true _) Hnne). cbn [andb].
      destruct (print_diff_ends w d) as [_ Hp].
      destruct (export_ends w a {| permissions := perms1; diff := Some d |})
        as [_ [_ He]].
      destruct (status (print_diff w d)) as [[] | r].
      * destruct (console w (Print MsgPolicyFail)); [discriminate |].
        cbn [status snd].
        destruct (status (export_if_requested w a
                            {| permissions := perms1; diff := Some d |}))
          as [[] | r]; [discriminate |].
        intros [= ->]. destruct (He _ eq_refl) as [e [ev [H _]]]. discriminate H.
      * intros [= ->]. destruct (Hp _ eq_refl) as [e [ev [H _]]]. discriminate H.
    + intros Hp. apply Htrace. apply (print_diff_Ok_lines w d Hp); auto.
Qed.

(** [filter_excluded_is_added] on [both.xml] against itself under
    [--only normal]: [CAMERA] is reported as added and as newly
    dangerous. *)
Lemma filter_excluded_is_added_witness :
  In Demo.CAMERA [Demo.CAMERA] /\
  In (Print (MsgAdded [Demo.CAMERA]))
     (trace (analyze Demo.demo_env Demo.filtered_args)).
Proof.
  destruct (filter_excluded_is_added Demo.demo_env Demo.filtered_args
              (cats := [lit "normal"])
              (data1 := Some Demo.both_xml) (data2 := Some Demo.both_xml)
              (root1 := Demo.manifest_of [Demo.INTERNET; Demo.CAMERA])
              (perms1 := [classify_permission Demo.INTERNET])
              (d := {| added := [Demo.CAMERA]; removed := [];
                       newDangerous := [Demo.CAMERA] |})
              Demo.CAMERA)
    as [_ [_ [Hadded [Hline _]]]];
    try (vm_compute; reflexivity).
  - discriminate.
  - vm_compute. tauto.
  - vm_compute. tauto.
  - vm_compute. intros [H | []]. discriminate H.
  - split; [exact Hadded |]. apply Hline. vm_compute. reflexivity.
Defined.

End CliMore.

(** ** More on what is shown: the filter, the table, the diff lines *)

Module ReportMore.
Import PyStr PyStrFacts Permission Cli Render Notions Notions2 CliFacts.

Lemma category_known (n : str) :
  In (category (classify_permission n)) known_categories.
Proof.
  unfold classify_permission.
  destruct (PyDict.get PERMISSION_CATEGORIES n) as [[c g] |] eqn:E; cbn.
  - apply ClassifyFacts.catalog_categories in E.
    unfold known_categories. simpl in *. tauto.
  - unfold known_categories. simpl. tauto.
Qed.

Lemma sensitive_is_membership (n : str) :
  sensitive (classify_permission n) =
  mem (category (classify_permission n)) [lit "dangerous"; lit "signature"].
Proof.
  unfold classify_permission.
  now destruct (PyDict.get PERMISSION_CATEGORIES n) as [[c g] |].
Qed.

Lemma filter_none {A} (f : A -> bool) (l : list A) :
  (forall x, In x l -> f x = false) -> List.filter f l = [].
Proof.
  induction l as [| x l IH]; intros H; simpl; [reflexivity |].
  rewrite (H x (or_introl eq_refl)). apply IH. intros y Hy. apply H. now right.
Qed.

(** X18: on a classified list, the filter [--only dangerous --only
    signature] keeps exactly the records marked sensitive; a non-empty
    [only] list that names none of the four categories leaves nothing;
    an empty [only] list filters nothing. *)
Theorem only_filter_on_classified (ns : list str) :
  let perms := List.map classify_permission ns in
  apply_only (Some [lit "dangerous"; lit "signature"]) perms
    = List.filter sensitive perms /\
  (forall cats,
     cats <> [] -> (forall c, In c cats -> ~ In c known_categories) ->
     apply_only (Some cats) perms = []) /\
  apply_only (Some []) perms = perms.
Proof.
  cbv zeta. split; [| split; [| reflexivity]].
  - unfold apply_only. cbn [nonempty]. apply filter_ext_in.
    intros p Hp. apply classified_record in Hp. destruct Hp as [-> _].
    symmetry. apply sensitive_is_membership.
  - intros cats Hne Hunknown. unfold apply_only.
    rewrite (proj2 (nonempty_true cats) Hne).
    apply filter_none. intros p Hp.
    apply classified_record in Hp. destruct Hp as [-> _].
    apply mem_not_In. intros Hin. exact (Hunknown _ Hin (category_known _)).
Qed.

(** X19: the table row of a classified permission.  The first cell is
    the name between the opening and closing tag of a color that is
    always taken from the color dictionary (the default of the lookup is
    never used); the check mark of the last cell goes with the colors
    red and yellow and with no other; the color dim and an empty group
    cell each mark exactly the names the catalog does not hold. *)
Theorem table_row_of_classified (n : str) :
  let p := classify_permission n in
  let color := color_of (category p) in
  PyDict.get ROW_COLORS (category p) = Some color /\
  cell_permission (table_row p)
    = lit "[" ++ color ++ lit "]" ++ n ++ lit "[/" ++ color ++ lit "]" /\
  (cell_sensitive (table_row p) = CHECK_MARK <->
   color = lit "red" \/ color = lit "yellow") /\
  (color = lit "dim" <-> PyDict.get PERMISSION_CATEGORIES n = None) /\
  (cell_group (table_row p) = [] <-> PyDict.get PERMISSION_CATEGORIES n = None).
Proof.
  cbv zeta.
  assert (Hname : cell_permission (table_row (classify_permission n))
                  = lit "[" ++ color_of (category (classify_permission n)) ++ lit "]"
                    ++ n ++ lit "[/"
                    ++ color_of (category (classify_permission n)) ++ lit "]").
  { unfold table_row. cbn [cell_permission].
    now rewrite DiffFacts.classified_name. }
  split; [| split; [exact Hname | clear Hname]].
  - pose proof (category_known n) as Hk. unfold known_categories in Hk.
    simpl in Hk. destruct Hk as [<- | [<- | [<- | [<- | []]]]]; reflexivity.
  - unfold table_row. cbn [cell_sensitive cell_group].
    unfold classify_permission.
    destruct (PyDict.get PERMISSION_CATEGORIES n) as [[c g] |] eqn:E;
      cbn [category group sensitive].
    + apply PyDictFacts.get_In in E. simpl in E.
      repeat (destruct E as [[= <- <- <-] | E];
              [vm_compute; repeat split; intros H;
               try discriminate H; try (now left); try (now right);
               try (destruct H as [H | H]; discriminate H);
               try reflexivity |]).
      destruct E.
    + vm_compute. repeat split; intros H;
        try discriminate H; try reflexivity;
        try (destruct H as [H | H]; discriminate H).
Qed.

(** X20: the lines printed for a diff made by [diff_permissions].
    When [added] and [removed] are both empty nothing is printed;
    otherwise the header comes first, then one line for each of the
    three lists that is not empty, in the order added, removed, newly
    dangerous.  The lines come out one after the other up to the first
    one that the console does not render: [print_diff] then raises what
    the console raised and the lines after it are lost; when the
    console renders them all, all are printed and [print_diff] returns.
    The line of [newDangerous], though printed under the test on
    [added] and [removed] only, is among the lines whenever that list
    is not empty. *)
Theorem print_diff_lines (w : Env) (old new : list PermissionRecord) :
  exists d,
    diff_permissions old new = Some d /\
    let lines :=
      (if nonempty (added d) then [MsgAdded (added d)] else [])
      ++ (if nonempty (removed d) then [MsgRemoved (removed d)] else [])
      ++ (if nonempty (newDangerous d)
          then [MsgNewDangerous (newDangerous d)] else []) in
    let all :=
      match lines with
      | [] => []
      | _ :: _ => MsgCompareHeader :: lines
      end in
    print_diff w d =
      (List.map Print (rendered w all),
       match first_failure w all with
       | None => Ok tt
       | Some e => Raise (Error e)
       end) /\
    (lines = [] <-> added d = [] /\ removed d = []) /\
    ((forall m, In m all -> console w (Print m) = None) ->
     print_diff w d = (List.map Print all, Ok tt)) /\
    (forall e, status (print_diff w d) = Raise (Error e) ->
       exists m, In m all /\ console w (Print m) = Some e).
Proof.
  destruct (DiffFacts.diff_permissions_facts old new)
    as [d [Hd [_ [_ [Hnd _]]]]].
  exists d. split; [exact Hd |].
  assert (Hsub : added d = [] -> newDangerous d = []).
  { intros Ha. destruct (newDangerous d) as [| n l] eqn:E; [reflexivity |].
    destruct (proj1 (Hnd n) (or_introl eq_refl)) as [Hin _].
    rewrite Ha in Hin. destruct Hin. }
  cbv zeta.
  assert (Hrun :
    print_diff w d =
    (List.map Print (rendered w
       match (if nonempty (added d) then [MsgAdded (added d)] else [])
             ++ (if nonempty (removed d) then [MsgRemoved (removed d)] else [])
             ++ (if nonempty (newDangerous d)
                 then [MsgNewDangerous (newDangerous d)] else []) with
       | [] => []
       | _ :: _ =>
           MsgCompareHeader
             :: (if nonempty (added d) then [MsgAdded (added d)] else [])
             ++ (if nonempty (removed d) then [MsgRemoved (removed d)] else [])
             ++ (if nonempty (newDangerous d)
                 then [MsgNewDangerous (newDangerous d)] else [])
       end),
     match first_failure w
       match (if nonempty (added d) then [MsgAdded (added d)] else [])
             ++ (if nonempty (removed d) then [MsgRemoved (removed d)] else [])
             ++ (if nonempty (newDangerous d)
                 then [MsgNewDangerous (newDangerous d)] else []) with
       | [] => []
       | _ :: _ =>
           MsgCompareHeader
             :: (if nonempty (added d) then [MsgAdded (added d)] else [])
             ++ (if nonempty (removed d) then [MsgRemoved (removed d)] else [])
             ++ (if nonempty (newDangerous d)
                 then [MsgNewDangerous (newDangerous d)] else [])
       end with
     | None => Ok tt
     | Some e => Raise (Error e)
     end)).
  { rewrite CliMore.print_diff_all. cbv zeta.
    destruct (added d) as [| a1 la] eqn:Ea.
    - rewrite (Hsub eq_refl). now destruct (removed d).
    - reflexivity. }
  split; [exact Hrun |]. split; [| split].
  - destruct (added d) as [| a1 la] eqn:Ea.
    + rewrite (Hsub eq_refl). destruct (removed d); cbn; split;
        try discriminate; try tauto. intros [_ H]. discriminate H.
    + cbn. split; [discriminate | intros [H _]; discriminate H].
  - intros Hall. rewrite Hrun.
    match goal with
    | |- context [first_failure w ?ms] =>
        destruct (first_failure w ms) as [x |] eqn:Hf
    end.
    + destruct (CliMore.first_failure_console _ _ Hf) as [m [Hin Hm]].
      rewrite (Hall m Hin) in Hm. discriminate Hm.
    + now rewrite (CliMore.rendered_all _ _ Hf).
  - intros e. rewrite Hrun. cbn [status snd].
    match goal with
    | |- context [first_failure w ?ms] =>
        destruct (first_failure w ms) as [x |] eqn:Hf
    end; [| discriminate].
    intros [= <-]. exact (CliMore.first_failure_console _ _ Hf).
Qed.

Lemma prints_only_no_table (ev : list event) :
  prints_only ev -> List.filter is_table ev = [].
Proof.
  induction ev as [| e ev IH]; intros H; simpl; [reflexivity |].
  destruct (H e (or_introl eq_refl)) as [m ->]. simpl.
  apply IH. intros e' He'. apply H. now right.
Qed.

Lemma finish_no_table (w : Env) (a : Args) (perms1 : list PermissionRecord)
      (d : DiffResult) :
  List.filter is_table (trace (finish w a perms1 d)) = [].
Proof.
  rewrite finish_run. cbv zeta.
  destruct (CliMore.print_diff_ends w d) as [Hp _].
  apply prints_only_no_table in Hp.
  destruct (CliMore.export_ends w a {| permissions := perms1; diff := Some d |})
    as [_ [He _]].
  destruct (status (print_diff w d)) as [[] | r]; [| exact Hp].
  destruct (policy_fires a d);
    [destruct (console w (Print MsgPolicyFail)); [exact Hp |] |];
    cbn [trace fst]; rewrite filter_app, Hp; cbn [List.filter is_table app];
    exact He.
Qed.

(** X21: the table of base permissions is shown exactly when the base
    stage goes through, once, with the value of that stage; whatever
    happens to the comparison afterwards, also an uncaught error, the
    table has been shown by then, and no other table is ever shown.
    (The base stage does not go through when the console raises on the
    table: no table is shown then.) *)
Theorem table_shown_once (w : Env) (a : Args) :
  List.filter is_table (trace (analyze w a)) =
  match status (base_stage w a) with
  | Ok perms1 => [Table (lit "Permissions (Base)") perms1]
  | Raise _ => []
  end.
Proof.
  assert (Hbase : List.filter is_table (trace (base_stage w a)) =
                  match status (base_stage w a) with
                  | Ok perms1 => [Table (lit "Permissions (Base)") perms1]
                  | Raise _ => []
                  end).
  { rewrite CliMore.base_stage_run. cbv zeta.
    destruct (CliMore.load_base_ends w a) as [Hp _].
    apply prints_only_no_table in Hp.
    assert (Hnc : List.filter is_table (if no_color a then [SetNoColor] else []) = [])
      by now destruct (no_color a).
    destruct (status (load_base w a)) as [data1 | e];
      [destruct (parse_attempt w data1) as [root |];
       match goal with
       | |- context [console w ?ev] => destruct (console w ev)
       end |];
      cbn [trace status fst snd]; rewrite ?filter_app, Hnc, Hp; reflexivity. }
  rewrite analyze_run.
  destruct (status (base_stage w a)) as [perms1 | e]; [| exact Hbase].
  assert (Hcmp : List.filter is_table (trace (compare_stage w a perms1)) = []).
  { rewrite CliMore.compare_stage_run.
    destruct (CliMore.load_compare_ends w a) as [Hp _].
    apply prints_only_no_table in Hp.
    destruct (status (load_compare w a)) as [data2 | e]; [| exact Hp].
    destruct (CliMore.parse_manifest_ends w data2) as [Hq _].
    apply prints_only_no_table in Hq. cbv zeta.
    destruct (status (parse_manifest w data2));
      [destruct (diff_permissions perms1 (compare_set (parse_attempt w data2))) |];
      cbn [trace fst]; now rewrite filter_app, Hp, Hq. }
  destruct (compare_requested a).
  - destruct (status (compare_stage w a perms1)) as [d | e]; cbn [trace fst].
    + now rewrite !filter_app, Hbase, Hcmp, finish_no_table.
    + now rewrite filter_app, Hbase, Hcmp.
  - cbn [trace fst].
    destruct (CliMore.export_ends w a {| permissions := perms1; diff := None |})
      as [_ [He _]].
    now rewrite filter_app, Hbase, He.
Qed.

(** X22: comparing against a manifest that parses and declares the
    same permissions, without a category filter, finds nothing: the
    diff is empty, no diff line is printed, and the run ends with exit
    code 0, also under the policy flag, once the export (if an output
    path is given) has gone through. *)
Theorem same_permissions_no_diff (w : Env) (a : Args) (ev1 ev2 : list event)
        (root1 root2 : Xml.element) (data2 : option bytes) :
  only a = None ->
  base_stage w a = (ev1, Ok (base_set a root1)) ->
  compare_requested a = true ->
  load_compare w a = (ev2, Ok data2) ->
  parse_attempt w data2 = Some root2 ->
  extract_permissions (Some root2) = extract_permissions (Some root1) ->
  let d := {| added := []; removed := []; newDangerous := [] |} in
  let report := {| permissions := base_set a root1; diff := Some d |} in
  compare_stage w a (base_set a root1) = (ev2, Ok d) /\
  print_diff w d = ([], Ok tt) /\
  (status (export_if_requested w a report) = Ok tt ->
   analyze w a =
     (ev1 ++ ev2 ++ trace (export_if_requested w a report), Raise (Exit 0))).
Proof.
  intros Honly Hbase Hreq Hload Hparse Hsame d report.
  assert (Hset : compare_set (Some root2) = base_set a root1).
  { unfold compare_set, base_set, apply_only. now rewrite Honly, Hsame. }
  destruct (DiffFacts.diff_permissions_facts (base_set a root1) (base_set a root1))
    as [d' [Hd [Hadd [Hrem [Hnd _]]]]].
  assert (Ha : added d' = []).
  { destruct (added d') as [| n l] eqn:E; [reflexivity |].
    destruct (proj1 (Hadd n) (or_introl eq_refl)). contradiction. }
  assert (Hr : removed d' = []).
  { destruct (removed d') as [| n l] eqn:E; [reflexivity |].
    destruct (proj1 (Hrem n) (or_introl eq_refl)). contradiction. }
  assert (Hn : newDangerous d' = []).
  { destruct (newDangerous d') as [| n l] eqn:E; [reflexivity |].
    destruct (proj1 (Hnd n) (or_introl eq_refl)) as [Hin _].
    rewrite Ha in Hin. destruct Hin. }
  assert (Hdd : d' = d).
  { destruct d' as [x y z]. cbn in Ha, Hr, Hn. now subst. }
  subst d'.
  assert (Hcmp : compare_stage w a (base_set a root1) = (ev2, Ok d)).
  { rewrite (compare_stage_ok w a (base_set a root1) Hload
               (m2 := Some root2) (d := d)).
    - rewrite (parse_manifest_Some _ _ Hparse). cbn. now rewrite app_nil_r.
    - now rewrite (parse_manifest_Some _ _ Hparse).
    - now rewrite Hset. }
  split; [exact Hcmp |]. split; [reflexivity |].
  intros Hexp.
  rewrite (analyze_compared w a Hbase Hreq Hcmp).
  rewrite finish_run. cbv zeta.
  change (print_diff w d) with (@ret unit tt).
  unfold policy_fires. cbn [newDangerous d nonempty status trace fst snd ret].
  rewrite andb_false_r. fold report. rewrite Hexp. reflexivity.
Qed.

(** [same_permissions_no_diff] on [both.xml] against itself under the
    policy flag. *)
Lemma same_permissions_no_diff_witness :
  analyze Demo.demo_env self_compare_args =
  ([Table (lit "Permissions (Base)")
      [classify_permission Demo.CAMERA; classify_permission Demo.INTERNET]],
   Raise (Exit 0)).
Proof.
  refine (proj2 (proj2
    (same_permissions_no_diff Demo.demo_env self_compare_args
       (Demo.manifest_of [Demo.INTERNET; Demo.CAMERA])
       (ev1 := [Table (lit "Permissions (Base)")
                  [classify_permission Demo.CAMERA;
                   classify_permission Demo.INTERNET]])
       (ev2 := [])
       (root2 := Demo.manifest_of [Demo.INTERNET; Demo.CAMERA])
       (data2 := Some Demo.both_xml)
       _ _ _ _ _ _)) _);
    vm_compute; reflexivity.
Defined.

End ReportMore.
